(** * The bootcamps controller (controllers/bootcamps.js)

    A shallow embedding of the request handlers of the bootcamps resource:
    the list handler [getBootcamps] (filter construction by
    stringify / regex rewrite / re-parse, pagination), the radius handler
    [getBootcampsInRadius] and the photo upload handler
    [bootcampPhotoUpload].

    Conventions of the embedding.
    - A JavaScript string is the sequence of bytes of its UTF-8 encoding
      ([string]).  Every operation the handlers perform on text (the word
      class of the regular expression, the JSON escapes, the digits, sign
      and blanks of parseInt, [split(',')], [startsWith('image')]) looks
      at ASCII characters only, which are single bytes; the blanks outside
      ASCII that parseInt skips are matched by their encodings.
    - A JavaScript integer is a [Z]; this is exact as long as the values
      stay below 2^53 in magnitude.  NaN is [None].
    - The distance of the radius route is a binary64 [float].
    - An exception thrown inside a handler, or a rejected storage call,
      is the outcome [Rejected]: the handlers are wrapped by asyncHandler,
      which forwards the rejection to the error middleware. *)

From Stdlib Require Import Bool Arith NArith ZArith List Ascii String Lia.
From Stdlib Require Import Floats.
From Stdlib Require Import Decimal DecimalString DecimalPos DecimalZ.
Import ListNotations.

Local Open Scope list_scope.
Local Open Scope string_scope.

(** ** Characters *)

Module Char.

Definition code (c : ascii) : N := N_of_ascii c.

Definition dquote : ascii := "034"%char.
Definition backslash : ascii := "\"%char.

Definition in_range (lo hi : N) (c : ascii) : bool :=
  (N.leb lo (code c) && N.leb (code c) hi)%bool.

Definition is_digit (c : ascii) : bool := in_range 48 57 c.

(** The class \w of a regular expression without the u and i flags:
    [A-Za-z0-9_]. *)
Definition is_word (c : ascii) : bool :=
  (in_range 48 57 c || in_range 65 90 c || in_range 97 122 c
   || N.eqb (code c) 95)%bool.

Definition is_control (c : ascii) : bool := N.ltb (code c) 32.

(** Lower-case hexadecimal digit of a number below 16. *)
Definition hex_digit (n : N) : ascii :=
  if N.ltb n 10 then ascii_of_N (48 + n) else ascii_of_N (87 + n).

Definition hex_val (c : ascii) : option N :=
  if in_range 48 57 c then Some (code c - 48)%N
  else if in_range 97 102 c then Some (code c - 87)%N
  else if in_range 65 70 c then Some (code c - 55)%N
  else None.

End Char.

(** ** JavaScript values that a parsed query string holds

    The query parser of the framework yields strings, arrays and nested
    objects ([price[gte]=5] is [{price: {gte: '5'}}]).  An object is the
    list of its own properties in enumeration order. *)

#[warnings="-register-all"]
Inductive value : Type :=
| VStr (s : string)
| VArr (items : list value)
| VObj (props : list (string * value)).

Definition object : Type := list (string * value).

Fixpoint get (k : string) (o : object) : option value :=
  match o with
  | [] => None
  | (k', v) :: o' => if String.eqb k k' then Some v else get k o'
  end.

(** [delete o[k]] *)
Fixpoint delete (k : string) (o : object) : object :=
  match o with
  | [] => []
  | (k', v) :: o' =>
      if String.eqb k k' then delete k o' else (k', v) :: delete k o'
  end.

(** [o[k] = v]: an existing property keeps its place, a new one is added
    last.  (JavaScript enumerates the names that are array indices before
    the others; a text that [JSON.stringify] printed has them in front
    already.) *)
Fixpoint set (k : string) (v : value) (o : object) : object :=
  match o with
  | [] => [(k, v)]
  | (k', v') :: o' =>
      if String.eqb k k' then (k, v) :: o' else (k', v') :: set k v o'
  end.

Definition keys (o : object) : list string := map fst o.

(** ** JSON.stringify on query values *)

Module JSON.

Import Char.

(** QuoteJSONString, one character. *)
Definition escape_char (c : ascii) : string :=
  if Ascii.eqb c dquote then String backslash (String dquote "")
  else if Ascii.eqb c backslash then String backslash (String backslash "")
  else if N.eqb (code c) 8 then String backslash "b"
  else if N.eqb (code c) 9 then String backslash "t"
  else if N.eqb (code c) 10 then String backslash "n"
  else if N.eqb (code c) 12 then String backslash "f"
  else if N.eqb (code c) 13 then String backslash "r"
  else if is_control c then
    String backslash
      (String "u" (String "0" (String "0"
        (String (hex_digit (code c / 16)) (String (hex_digit (code c mod 16)) "")))))
  else String c "".

Fixpoint escape (s : string) : string :=
  match s with
  | EmptyString => EmptyString
  | String c s' => escape_char c ++ escape s'
  end.

Definition quote (s : string) : string :=
  String dquote (escape s ++ String dquote "").

Fixpoint stringify (v : value) : string :=
  match v with
  | VStr s => quote s
  | VArr items => "[" ++ String.concat "," (map stringify items) ++ "]"
  | VObj props =>
      "{" ++ String.concat ","
               (map (fun kv => quote (fst kv) ++ ":" ++ stringify (snd kv)) props)
          ++ "}"
  end.

(** *** JSON.parse

    The reader covers the part of the JSON grammar that [stringify]
    produces from query values: strings with every escape of the grammar,
    arrays and objects, without insignificant blanks.  Numbers and the
    literals true, false and null are not values of the embedding; on such
    a text, and on an escape that denotes a lone surrogate, the reader
    answers [None] although JSON.parse would not throw.  Where the reader
    answers [Some v], JSON.parse returns [v]. *)

(** UTF-8 encoding of a code point of the basic plane. *)
Definition utf8 (n : N) : option string :=
  if N.ltb n 128 then Some (String (ascii_of_N n) "")
  else if N.ltb n 2048 then
    Some (String (ascii_of_N (192 + n / 64))
            (String (ascii_of_N (128 + n mod 64)) ""))
  else if (N.leb 55296 n && N.leb n 57343)%bool then None
  else
    Some (String (ascii_of_N (224 + n / 4096))
            (String (ascii_of_N (128 + (n / 64) mod 64))
               (String (ascii_of_N (128 + n mod 64)) ""))).

Definition hex4 (a b c d : ascii) : option N :=
  match hex_val a, hex_val b, hex_val c, hex_val d with
  | Some x, Some y, Some z, Some w => Some (((x * 16 + y) * 16 + z) * 16 + w)%N
  | _, _, _, _ => None
  end.

Definition unescape (e : ascii) : option ascii :=
  if Ascii.eqb e dquote then Some dquote
  else if Ascii.eqb e backslash then Some backslash
  else if Ascii.eqb e "/" then Some "/"%char
  else if Ascii.eqb e "b" then Some (ascii_of_N 8)
  else if Ascii.eqb e "f" then Some (ascii_of_N 12)
  else if Ascii.eqb e "n" then Some (ascii_of_N 10)
  else if Ascii.eqb e "r" then Some (ascii_of_N 13)
  else if Ascii.eqb e "t" then Some (ascii_of_N 9)
  else None.

Definition prepend (p : string) (r : option (string * string)) :
  option (string * string) :=
  match r with
  | Some (body, rest) => Some (p ++ body, rest)
  | None => None
  end.

(** The characters of a string literal after its opening quote: the
    decoded string and the text after the closing quote. *)
Fixpoint read_chars (s : string) : option (string * string) :=
  match s with
  | EmptyString => None
  | String c s1 =>
      if Ascii.eqb c dquote then Some (EmptyString, s1)
      else if Ascii.eqb c backslash then
        match s1 with
        | EmptyString => None
        | String e s2 =>
            if Ascii.eqb e "u" then
              match s2 with
              | String h1 (String h2 (String h3 (String h4 s3))) =>
                  match hex4 h1 h2 h3 h4 with
                  | Some n =>
                      match utf8 n with
                      | Some p => prepend p (read_chars s3)
                      | None => None
                      end
                  | None => None
                  end
              | _ => None
              end
            else
              match unescape e with
              | Some d => prepend (String d "") (read_chars s2)
              | None => None
              end
        end
      else if is_control c then None
      else prepend (String c "") (read_chars s1)
  end.

(** A value, then the members of an object or the elements of an array
    after the first; [fuel] bounds the number of nested calls. *)
Fixpoint read_value (fuel : nat) (s : string) : option (value * string) :=
  match fuel with
  | O => None
  | S fuel' =>
      match s with
      | EmptyString => None
      | String c s1 =>
          if Ascii.eqb c dquote then
            match read_chars s1 with
            | Some (str, rest) => Some (VStr str, rest)
            | None => None
            end
          else if Ascii.eqb c "[" then
            match s1 with
            | String d rest =>
                if Ascii.eqb d "]" then Some (VArr [], rest)
                else read_elements fuel' s1 []
            | EmptyString => None
            end
          else if Ascii.eqb c "{" then
            match s1 with
            | String d rest =>
                if Ascii.eqb d "}" then Some (VObj [], rest)
                else read_members fuel' s1 []
            | EmptyString => None
            end
          else None
      end
  end

with read_elements (fuel : nat) (s : string) (acc : list value) :
  option (value * string) :=
  match fuel with
  | O => None
  | S fuel' =>
      match read_value fuel' s with
      | Some (v, String d rest) =>
          if Ascii.eqb d "," then read_elements fuel' rest (acc ++ [v])%list
          else if Ascii.eqb d "]" then Some (VArr (acc ++ [v])%list, rest)
          else None
      | _ => None
      end
  end

with read_members (fuel : nat) (s : string) (acc : object) :
  option (value * string) :=
  match fuel with
  | O => None
  | S fuel' =>
      match s with
      | String q s1 =>
          if Ascii.eqb q dquote then
            match read_chars s1 with
            | Some (k, String colon s2) =>
                if Ascii.eqb colon ":" then
                  match read_value fuel' s2 with
                  | Some (v, String d rest) =>
                      if Ascii.eqb d "," then read_members fuel' rest (set k v acc)
                      else if Ascii.eqb d "}" then Some (VObj (set k v acc), rest)
                      else None
                  | _ => None
                  end
                else None
            | _ => None
            end
          else None
      | EmptyString => None
      end
  end.

(** [JSON.parse text]: [None] is the SyntaxError. *)
Definition parse (text : string) : option value :=
  match read_value (S (String.length text)) text with
  | Some (v, EmptyString) => Some v
  | _ => None
  end.

End JSON.

(** ** queryStr.replace(/\b(gt|gte|lt|lte|in)\b/g, match => `$${match}`) *)

Module Regex.

Import Char.

Definition alternatives : list string := ["gt"; "gte"; "lt"; "lte"; "in"].

Fixpoint strip_prefix (p s : string) : option string :=
  match p with
  | EmptyString => Some s
  | String a p' =>
      match s with
      | String b s' => if Ascii.eqb a b then strip_prefix p' s' else None
      | EmptyString => None
      end
  end.

Definition head_is_word (s : string) : bool :=
  match s with
  | String c _ => is_word c
  | EmptyString => false
  end.

(** The assertion \b between a character ([before] tells whether it is a
    word character; there is none at the start of the text) and the text
    [after]. *)
Definition word_boundary (before : bool) (after : string) : bool :=
  xorb before (head_is_word after).

(** The group (gt|gte|lt|lte|in) followed by \b at the head of [s]: the
    alternatives are tried from left to right, and the first one that
    lets the rest of the pattern match is taken.  Every alternative ends
    in a word character. *)
Fixpoint match_group (alts : list string) (s : string) : option string :=
  match alts with
  | [] => None
  | a :: alts' =>
      match strip_prefix a s with
      | Some rest => if word_boundary true rest then Some a else match_group alts' s
      | None => match_group alts' s
      end
  end.

Definition match_at (before : bool) (s : string) : option string :=
  if word_boundary before s then match_group alternatives s else None.

(** The global replace, scanning from left to right.  [before] is the
    class of the previous character and [pending] the number of
    characters of the current match that are still to be copied; at an
    index where the pattern matches, the sigil is put before the match
    and the scan resumes behind it. *)
Fixpoint replace_from (before : bool) (pending : nat) (s : string) : string :=
  match s with
  | EmptyString => EmptyString
  | String c s' =>
      match pending with
      | S k => String c (replace_from (is_word c) k s')
      | O =>
          match match_at before s with
          | Some m =>
              String "$" (String c (replace_from (is_word c) (String.length m - 1) s'))
          | None => String c (replace_from (is_word c) 0 s')
          end
      end
  end.

Definition replace (s : string) : string := replace_from false 0 s.

End Regex.

(** ** parseInt(x, 10) and the || default *)

Module Number.

Import Char.

(** The blanks that parseInt skips (WhiteSpace and LineTerminator), by the
    bytes of their encoding: one byte for U+0009..U+000D and U+0020, two
    for U+00A0, three for U+1680, U+2000..U+200A, U+2028, U+2029, U+202F,
    U+205F, U+3000 and U+FEFF. *)
Definition blank1 (c : ascii) : bool :=
  (in_range 9 13 c || N.eqb (code c) 32)%bool.

Definition blank2 (c d : ascii) : bool :=
  (N.eqb (code c) 194 && N.eqb (code d) 160)%bool.

Definition blank3 (c d e : ascii) : bool :=
  (N.eqb (code c) 225 && N.eqb (code d) 154 && N.eqb (code e) 128
   || N.eqb (code c) 226 && N.eqb (code d) 128
        && (in_range 128 138 e || in_range 168 169 e || N.eqb (code e) 175)
   || N.eqb (code c) 226 && N.eqb (code d) 129 && N.eqb (code e) 159
   || N.eqb (code c) 227 && N.eqb (code d) 128 && N.eqb (code e) 128
   || N.eqb (code c) 239 && N.eqb (code d) 187 && N.eqb (code e) 191)%bool.

Fixpoint trim_start (s : string) : string :=
  match s with
  | EmptyString => s
  | String c s1 =>
      if blank1 c then trim_start s1
      else
        match s1 with
        | EmptyString => s
        | String d s2 =>
            if blank2 c d then trim_start s2
            else
              match s2 with
              | EmptyString => s
              | String e s3 => if blank3 c d e then trim_start s3 else s
              end
        end
  end.

(** The longest prefix of decimal digits, as a number; [acc] is [None]
    until a digit has been read.  The number is the mathematical value
    of the digits; parseInt returns it as it is when it is [safe], and
    rounded to binary64 from 2^53 on, which the embedding does not
    follow: the statements on page and limit carry the bound. *)
Fixpoint digits (acc : option Z) (s : string) : option Z :=
  match s with
  | EmptyString => acc
  | String c s' =>
      if is_digit c then
        digits (Some (10 * match acc with Some n => n | None => 0 end
                      + Z.of_N (code c - 48))%Z) s'
      else acc
  end.

(** parseInt(s, 10) on a string; [None] is NaN. *)
Definition parseInt_string (s : string) : option Z :=
  let s1 := trim_start s in
  let '(sign, s2) :=
    match s1 with
    | String "-" r => ((-1)%Z, r)
    | String "+" r => (1%Z, r)
    | _ => (1%Z, s1)
    end in
  match digits None s2 with
  | Some n => Some (sign * n)%Z
  | None => None
  end.

(** The elements of a list, when every one of them is there. *)
Fixpoint all_some {A : Type} (l : list (option A)) : option (list A) :=
  match l with
  | [] => Some []
  | Some a :: l' =>
      match all_some l' with
      | Some r => Some (a :: r)
      | None => None
      end
  | None :: _ => None
  end.

(** ToString of a query value; [None] is a thrown TypeError.  An array
    joins the texts of its elements with commas.  An object reads as
    [object Object] through the toString it inherits; an object with a
    property of its own named toString (?page[toString]=2) has a toString
    that cannot be called and a valueOf that returns the object, so no
    primitive value is found. *)
Fixpoint ToString (v : value) : option string :=
  match v with
  | VStr s => Some s
  | VArr items =>
      match all_some (map ToString items) with
      | Some texts => Some (String.concat "," texts)
      | None => None
      end
  | VObj props =>
      match get "toString" props with
      | Some _ => None
      | None => Some "[object Object]"
      end
  end.

(** The text that parseInt reads of a property of the query that may be
    undefined; [None] is a thrown TypeError. *)
Definition text_of (x : option value) : option string :=
  match x with
  | Some v => ToString v
  | None => Some "undefined"
  end.

(** parseInt(x, 10); [None] is NaN.  Where [text_of x] throws there is
    no value: the handler has ended by then, and [None] stands in. *)
Definition parseInt (x : option value) : option Z :=
  match text_of x with
  | Some s => parseInt_string s
  | None => None
  end.

(** The integers that a number holds exactly (the safe integers). *)
Definition safe (z : Z) : Prop := (Z.abs z < 2 ^ 53)%Z.

(** [n || d]: NaN and zero are falsy. *)
Definition or_default (n : option Z) (d : Z) : Z :=
  match n with
  | Some 0%Z | None => d
  | Some z => z
  end.

End Number.

(** ** The world outside the controller *)

(** new ErrorResponse(message, statusCode) *)
Record ErrorResponse : Type := { message : string; statusCode : Z }.

Inductive Exception : Type :=
| SyntaxError      (* JSON.parse *)
| TypeError        (* a property or method of undefined *)
| StorageError     (* a rejected call of the model *)
| GeocoderError.   (* a rejected call of the geocoder *)

(** What a handler ends with: a JSON response, an error handed to
    [next], a rejection of the handler itself (forwarded by
    asyncHandler), or a rejection inside the callback of [file.mv], which
    nothing catches. *)
Inductive Outcome (B : Type) : Type :=
| Respond (status : Z) (body : B)
| Next (e : ErrorResponse)
| Rejected (e : Exception)
| Unhandled (e : Exception).

Arguments Respond {B} status body.
Arguments Next {B} e.
Arguments Rejected {B} e.
Arguments Unhandled {B} e.

(** The query that [getBootcamps] chains on the model before awaiting it. *)
Record Query : Type := {
  q_filter : value;
  q_populate : string;
  q_select : option string;
  q_sort : string;
  q_skip : Z;
  q_limit : Z
}.

(** { location: { $geoWithin: { $centerSphere: [[lng, lat], radius] } } } *)
Record GeoFilter : Type := {
  center_lng : float;
  center_lat : float;
  sphere_radius : float
}.

Record Location : Type := { latitude : float; longitude : float }.

(** req.files.file of the upload middleware. *)
Record File : Type := { name : string; mimetype : string; size : Z }.

(** The calls that leave the controller.  A find is recorded where the
    query is awaited: Bootcamp.find(...) and the methods chained on it
    only build the query, and nothing is sent before the await. *)
Inductive Call : Type :=
| CFind (q : Query)
| CCountDocuments
| CFindGeo (g : GeoFilter)
| CFindById (id : string)
| CFindByIdAndUpdate (id : string) (photo : string)
| CGeocode (zipcode : string)
| CMv (path : string).

(** The Bootcamp model, the geocoder, the file system and the process
    environment, as the answers they give.  [None] is a rejected
    promise; [findById] resolves to null ([Some None]) when no document
    has the id. *)
Record World (Doc : Type) : Type := {
  documents : list Doc;
  matches : value -> Doc -> bool;
  exec : Query -> option (list Doc);
  find_geo : GeoFilter -> option (list Doc);
  findById : string -> option (option Doc);
  doc_id : Doc -> string;
  findByIdAndUpdate : string -> string -> bool;
  geocode : string -> option (list Location);
  mv : string -> bool;
  (* Number(process.env.MAX_FILE_UPLOAD); None when it is not a number *)
  MAX_FILE_UPLOAD : option Z;
  (* the texts that the template literals print for the two variables *)
  MAX_FILE_UPLOAD_text : string;
  FILE_UPLOAD_PATH : string;
  (* path.parse(name).ext *)
  path_ext : string -> string
}.

Arguments documents {Doc} w.
Arguments matches {Doc} w.
Arguments exec {Doc} w.
Arguments find_geo {Doc} w.
Arguments findById {Doc} w.
Arguments doc_id {Doc} w.
Arguments findByIdAndUpdate {Doc} w.
Arguments geocode {Doc} w.
Arguments mv {Doc} w.
Arguments MAX_FILE_UPLOAD {Doc} w.
Arguments MAX_FILE_UPLOAD_text {Doc} w.
Arguments FILE_UPLOAD_PATH {Doc} w.
Arguments path_ext {Doc} w.

(** Bootcamp.countDocuments() without a filter: every document of the
    collection. *)
Definition countDocuments {Doc} (w : World Doc) : Z :=
  Z.of_nat (List.length (documents w)).

(** ** A handler: the calls it made and how it ended *)

Module Handler.

Inductive Step (B A : Type) : Type :=
| Go (a : A)
| Done (o : Outcome B).

Arguments Go {B A} a.
Arguments Done {B A} o.

Definition Run (B A : Type) : Type := (list Call * Step B A)%type.

Definition ret {B A} (a : A) : Run B A := ([], Go a).

Definition bind {B A C} (m : Run B A) (f : A -> Run B C) : Run B C :=
  match m with
  | (l, Go a) => let '(l', r) := f a in ((l ++ l')%list, r)
  | (l, Done o) => (l, Done o)
  end.

Definition finish {B A} (o : Outcome B) : Run B A := ([], Done o).

(** [await] of an outside call. *)
Definition await {B A} (c : Call) (answer : option A) (e : Exception) : Run B A :=
  match answer with
  | Some a => ([c], Go a)
  | None => ([c], Done (Rejected e))
  end.

(** A value that may be a thrown exception. *)
Definition try {B A} (r : option A) (e : Exception) : Run B A :=
  match r with
  | Some a => ret a
  | None => finish (Rejected e)
  end.

End Handler.

Notation "x <- m ;; k" := (Handler.bind m (fun x => k))
  (at level 61, m at next level, right associativity).

Record Result (B : Type) : Type := { calls : list Call; outcome : Outcome B }.

Arguments calls {B} r.
Arguments outcome {B} r.

Definition run {B} (m : Handler.Run B Empty_set) : Result B :=
  match m with
  | (l, Handler.Done o) => {| calls := l; outcome := o |}
  | (l, Handler.Go a) => match a with end
  end.

(** ** The handlers *)

Module Bootcamps.

Import Handler.

Record Page : Type := { page : Z; limit : Z }.

(** The object [pagination]: a property that was not assigned is [None]. *)
Record Pagination : Type := { next : option Page; prev : option Page }.

Record ListBody (Doc : Type) : Type := {
  success : bool;
  count : nat;
  pagination : Pagination;
  data : list Doc
}.

Arguments success {Doc} _.
Arguments count {Doc} _.
Arguments pagination {Doc} _.
Arguments data {Doc} _.

Record RadiusBody (Doc : Type) : Type := {
  r_success : bool;
  r_count : nat;
  r_data : list Doc
}.

Arguments r_success {Doc} _.
Arguments r_count {Doc} _.
Arguments r_data {Doc} _.

Record PhotoBody : Type := { p_success : bool; p_data : string }.

(** *** getBootcamps, lines 14 to 31: the filter *)

Definition removeFields : list string := ["select"; "sort"; "page"; "limit"].

(** removeFields.forEach(field => delete reqQuery[field]) on the copy of
    req.query *)
Definition remove_fields (reqQuery : object) : object :=
  fold_left (fun o field => delete field o) removeFields reqQuery.

(** The text handed to JSON.parse. *)
Definition queryStr (query : object) : string :=
  Regex.replace (JSON.stringify (VObj (remove_fields query))).

(** The argument of Bootcamp.find; [None] when JSON.parse throws. *)
Definition filter_of (query : object) : option value :=
  JSON.parse (queryStr query).

(** *** lines 33 to 47: select and sort *)

Definition truthy (x : option value) : bool :=
  match x with
  | None => false
  | Some (VStr EmptyString) => false
  | Some _ => true
  end.

Fixpoint split (sep : ascii) (s : string) : list string :=
  match s with
  | EmptyString => [EmptyString]
  | String c s' =>
      if Ascii.eqb c sep then EmptyString :: split sep s'
      else
        match split sep s' with
        | h :: t => String c h :: t
        | [] => [String c EmptyString]
        end
  end.

(** x.split(',').join(' '); only a string has the method. *)
Definition split_join (x : option value) : option string :=
  match x with
  | Some (VStr s) => Some (String.concat " " (split "," s))
  | _ => None
  end.

(** *** lines 49 to 78: pagination

    The arithmetic is that of the integers, which is the arithmetic of
    the code as long as the operands and the results are
    [Number.safe]. *)

Definition page_of (query : object) : Z :=
  Number.or_default (Number.parseInt (get "page" query)) 1.

Definition limit_of (query : object) : Z :=
  Number.or_default (Number.parseInt (get "limit" query)) 25.

Definition startIndex (page limit : Z) : Z := (page - 1) * limit.
Definition endIndex (page limit : Z) : Z := page * limit.

Definition paginate (page limit totalEntries : Z) : Pagination :=
  {| next :=
       if (endIndex page limit <? totalEntries)%Z
       then Some {| page := page + 1; limit := limit |}
       else None;
     prev :=
       if (startIndex page limit >? 0)%Z
       then Some {| page := page - 1; limit := limit |}
       else None |}.

Section Controller.

Context {Doc : Type}.
Variable w : World Doc.

Definition getBootcamps (query : object) : Result (ListBody Doc) :=
  run (
    filter <- try (filter_of query) SyntaxError ;;
    fields <- (if truthy (get "select" query)
               then f <- try (split_join (get "select" query)) TypeError ;;
                    ret (Some f)
               else ret None) ;;
    sortBy <- (if truthy (get "sort" query)
               then try (split_join (get "sort" query)) TypeError
               else ret "-createdAt") ;;
    pageText <- try (Number.text_of (get "page" query)) TypeError ;;
    limitText <- try (Number.text_of (get "limit" query)) TypeError ;;
    let page := page_of query in
    let limit := limit_of query in
    totalEntries <- await CCountDocuments (Some (countDocuments w)) StorageError ;;
    let q := {| q_filter := filter;
                q_populate := "courses";
                q_select := fields;
                q_sort := sortBy;
                q_skip := startIndex page limit;
                q_limit := limit |} in
    bootcamps <- await (CFind q) (exec w q) StorageError ;;
    finish (Respond 200
              {| success := true;
                 count := List.length bootcamps;
                 pagination := paginate page limit totalEntries;
                 data := bootcamps |})).

(** *** getBootcampsInRadius

    [distance] is the number that the division makes of the route
    parameter req.params.distance; it is NaN when the parameter is not
    numeric. *)

Definition radius_of (distance : float) : float := (distance / 6378)%float.

Definition getBootcampsInRadius (zipcode : string) (distance : float) :
  Result (RadiusBody Doc) :=
  run (
    loc <- await (CGeocode zipcode) (geocode w zipcode) GeocoderError ;;
    loc0 <- try (hd_error loc) TypeError ;;
    let lat := latitude loc0 in
    let lng := longitude loc0 in
    let radius := radius_of distance in
    let g := {| center_lng := lng; center_lat := lat; sphere_radius := radius |} in
    bootcamps <- await (CFindGeo g) (find_geo w g) StorageError ;;
    finish (Respond 200
              {| r_success := true;
                 r_count := List.length bootcamps;
                 r_data := bootcamps |})).

(** *** bootcampPhotoUpload

    [files] is req.files: undefined without an upload, else the uploaded
    files by field name. *)

(** file.size > process.env.MAX_FILE_UPLOAD: a comparison with NaN is
    false. *)
Definition exceeds (size : Z) (max : option Z) : bool :=
  match max with
  | Some m => (size >? m)%Z
  | None => false
  end.

Fixpoint field (k : string) (files : list (string * File)) : option File :=
  match files with
  | [] => None
  | (k', f) :: files' => if String.eqb k k' then Some f else field k files'
  end.

Definition not_found (id : string) : ErrorResponse :=
  {| message := "Bootcamp id " ++ id ++ " not found"; statusCode := 404 |}.

Definition bootcampPhotoUpload (id : string) (files : option (list (string * File))) :
  Result PhotoBody :=
  run (
    bootcamp <- await (CFindById id) (findById w id) StorageError ;;
    match bootcamp with
    | None => finish (Next (not_found id))
    | Some b =>
        match files with
        | None =>
            finish (Next {| message := "Please upload a file"; statusCode := 400 |})
        | Some fs =>
            file <- try (field "file" fs) TypeError ;;
            if negb (String.prefix "image" (mimetype file)) then
              finish (Next {| message := "Please upload an image file";
                              statusCode := 400 |})
            else if exceeds (size file) (MAX_FILE_UPLOAD w) then
              finish (Next {| message := "Please upload an image less than "
                                         ++ MAX_FILE_UPLOAD_text w ++ " bytes";
                              statusCode := 400 |})
            else
              let name' := "photo_" ++ doc_id w b ++ path_ext w (name file) in
              let path := FILE_UPLOAD_PATH w ++ "/" ++ name' in
              if mv w path then
                if findByIdAndUpdate w id name' then
                  ([CMv path; CFindByIdAndUpdate id name'],
                   Done (Respond 200 {| p_success := true; p_data := name' |}))
                else
                  ([CMv path; CFindByIdAndUpdate id name'],
                   Done (Unhandled StorageError))
              else
                ([CMv path],
                 Done (Next {| message := "Problem with file upload. Please try again.";
                               statusCode := 500 |}))
        end
    end).

End Controller.

End Bootcamps.

(** ** Notions used by the statements *)

Module Text.

Import Char.

(** A character that a string literal holds as it is. *)
Definition plain (c : ascii) : bool :=
  (negb (Ascii.eqb c dquote) && negb (Ascii.eqb c backslash)
   && negb (is_control c))%bool.

(** The letter of a two-character escape. *)
Definition simple (e : ascii) : bool :=
  match JSON.unescape e with
  | Some _ => true
  | None => false
  end.

Definition hex_ok (h1 h2 h3 h4 : ascii) : bool :=
  match JSON.hex4 h1 h2 h3 h4 with
  | Some n =>
      match JSON.utf8 n with
      | Some _ => true
      | None => false
      end
  | None => false
  end.

(** The text between the quotes of a string literal. *)
Inductive body : string -> Prop :=
| body_nil : body EmptyString
| body_plain c s : plain c = true -> body s -> body (String c s)
| body_simple e s :
    simple e = true -> body s -> body (String backslash (String e s))
| body_hex h1 h2 h3 h4 s :
    hex_ok h1 h2 h3 h4 = true -> body s ->
    body (String backslash
            (String "u" (String h1 (String h2 (String h3 (String h4 s)))))).

(** What JSON.parse reads from the text between the quotes. *)
Definition decode (s : string) : string :=
  match JSON.read_chars (s ++ String dquote EmptyString) with
  | Some (d, _) => d
  | None => EmptyString
  end.

Fixpoint has_sigil (s : string) : bool :=
  match s with
  | EmptyString => false
  | String c s' => (Ascii.eqb c "$" || has_sigil s')%bool
  end.

Fixpoint all_word (s : string) : bool :=
  match s with
  | EmptyString => true
  | String c s' => (is_word c && all_word s')%bool
  end.

(** A string as the filter holds it after the three steps: escaped,
    rewritten by the regular expression, read back. *)
Definition sigil (s : string) : string :=
  decode (Regex.replace (JSON.escape s)).

(** A value printed with [f] for the text between the quotes;
    [JSON.stringify] is [render JSON.escape]. *)
Fixpoint render (f : string -> string) (v : value) : string :=
  match v with
  | VStr s => String dquote (f s ++ String dquote EmptyString)
  | VArr items => "[" ++ String.concat "," (map (render f) items) ++ "]"
  | VObj props =>
      "{" ++ String.concat ","
               (map (fun kv => String dquote (f (fst kv) ++ String dquote EmptyString)
                               ++ ":" ++ render f (snd kv)) props)
          ++ "}"
  end.

(** The value read back from [render f v]: [g] on every string, the
    properties assigned from left to right. *)
Fixpoint reread (g : string -> string) (v : value) : value :=
  match v with
  | VStr s => VStr (g s)
  | VArr items => VArr (map (reread g) items)
  | VObj props =>
      VObj (fold_left (fun acc kv => set (g (fst kv)) (reread g (snd kv)) acc)
              props [])
  end.

(** The text starts a string, an array or an object. *)
Definition head_open (s : string) : bool :=
  match s with
  | String c _ => (Ascii.eqb c dquote || Ascii.eqb c "[" || Ascii.eqb c "{")%bool
  | EmptyString => false
  end.

Fixpoint size (v : value) : nat :=
  match v with
  | VStr _ => 1
  | VArr items => S (fold_right (fun x n => S (size x + n)) 0 items)
  | VObj props => S (fold_right (fun kv n => S (size (snd kv) + n)) 0 props)
  end.

End Text.

(** ** A small collection to run the handlers on *)

Module Demo.

Definition Doc : Type := list (string * string).

Fixpoint lookup (k : string) (d : Doc) : option string :=
  match d with
  | [] => None
  | (k', v) :: d' => if String.eqb k k' then Some v else lookup k d'
  end.

(** Exact match on every field of the filter. *)
Definition exact_match (f : value) (d : Doc) : bool :=
  match f with
  | VObj props =>
      forallb (fun kv =>
                 match snd kv, lookup (fst kv) d with
                 | VStr s, Some s' => String.eqb s s'
                 | _, _ => false
                 end) props
  | _ => false
  end.

Definition docs : list Doc :=
  [ [("_id", "b1"); ("name", "a")];
    [("_id", "b2"); ("name", "b")];
    [("_id", "b3"); ("name", "c")] ].

Definition run_query (q : Query) : option (list Doc) :=
  if (q_skip q <? 0)%Z then None
  else
    Some (firstn (Z.abs_nat (q_limit q))
            (skipn (Z.to_nat (q_skip q))
               (filter (exact_match (q_filter q)) docs))).

Definition world : World Doc :=
  {| documents := docs;
     matches := exact_match;
     exec := run_query;
     find_geo := fun _ => Some docs;
     findById := fun id =>
       Some (find (fun d => match lookup "_id" d with
                            | Some i => String.eqb i id
                            | None => false
                            end) docs);
     doc_id := fun d => match lookup "_id" d with Some i => i | None => "" end;
     findByIdAndUpdate := fun _ _ => true;
     geocode := fun _ => Some [ {| latitude := 42.25%float; longitude := (-71.5)%float |} ];
     mv := fun _ => true;
     MAX_FILE_UPLOAD := Some 1000000%Z;
     MAX_FILE_UPLOAD_text := "1000000";
     FILE_UPLOAD_PATH := "./public/uploads";
     path_ext := fun _ => ".jpg" |}.

Definition photo (bytes : Z) : File :=
  {| name := "me.jpg"; mimetype := "image/jpeg"; size := bytes |}.

End Demo.

(** ** More notions on texts and values *)

Module Shape.

Import Char.

(** Every character is held by a string literal as it is: no quote, no
    backslash, no control character. *)
Fixpoint all_plain (s : string) : bool :=
  match s with
  | EmptyString => true
  | String c s' => (Text.plain c && all_plain s')%bool
  end.

(** [s] without the occurrences of [c]. *)
Fixpoint erase (c : ascii) (s : string) : string :=
  match s with
  | EmptyString => EmptyString
  | String x s' => if Ascii.eqb x c then erase c s' else String x (erase c s')
  end.

(** [s] with [b] for every [a]. *)
Fixpoint subst_char (a b : ascii) (s : string) : string :=
  match s with
  | EmptyString => EmptyString
  | String x s' => String (if Ascii.eqb x a then b else x) (subst_char a b s')
  end.

(** [p] holds of every string and of every property name of a value. *)
Fixpoint strings_all (p : string -> bool) (v : value) : bool :=
  match v with
  | VStr s => p s
  | VArr items => forallb (strings_all p) items
  | VObj props =>
      forallb (fun kv => (p (fst kv) && strings_all p (snd kv))%bool) props
  end.

(** No object of the value has two properties of one name. *)
Fixpoint well_named (v : value) : Prop :=
  match v with
  | VStr _ => True
  | VArr items => fold_right (fun x P => well_named x /\ P) True items
  | VObj props =>
      NoDup (map fst props)
      /\ fold_right (fun kv P => well_named (snd kv) /\ P) True props
  end.

Definition reserved (k : string) : bool :=
  existsb (String.eqb k) Bootcamps.removeFields.

(** The regular expression leaves the string as it is. *)
Definition untouched (s : string) : bool :=
  String.eqb (Regex.replace s) s.

(** The text starts with a decimal digit. *)
Definition head_is_digit (s : string) : bool :=
  match s with
  | String c _ => is_digit c
  | EmptyString => false
  end.

(** An integer in decimal, with a minus sign when negative. *)
Definition decimal (z : Z) : string :=
  DecimalString.NilZero.string_of_int (Z.to_int z).

End Shape.

(** ** The handlers of one bootcamp: getBootcamp, createBootcamp,
    updateBootcamp, deleteBootcamp *)

Module Crud.

(** The calls of the model that these handlers make.  [None] is a
    rejected promise (a cast or validation error, a lost connection);
    [Some None] is null.  [Body] is req.body. *)
Record Model (Doc Body : Type) : Type := {
  m_findById : string -> option (option Doc);
  m_create : Body -> option Doc;
  (* findByIdAndUpdate(id, body, { new: true, runValidators: true }) *)
  m_findByIdAndUpdate : string -> Body -> option (option Doc);
  (* bootcamp.remove() resolves *)
  m_remove : Doc -> bool
}.

Arguments m_findById {Doc Body} _.
Arguments m_create {Doc Body} _.
Arguments m_findByIdAndUpdate {Doc Body} _.
Arguments m_remove {Doc Body} _.

Inductive Op (Doc Body : Type) : Type :=
| OFindById (id : string)
| OCreate (body : Body)
| OFindByIdAndUpdate (id : string) (body : Body)
| ORemove (d : Doc).

Arguments OFindById {Doc Body} id.
Arguments OCreate {Doc Body} body.
Arguments OFindByIdAndUpdate {Doc Body} id body.
Arguments ORemove {Doc Body} d.

(** The property data of the answer: a document, or the empty object. *)
Inductive Data (Doc : Type) : Type :=
| Document (d : Doc)
| EmptyObject.

Arguments Document {Doc} d.
Arguments EmptyObject {Doc}.

Record ItemBody (Doc : Type) : Type := { i_success : bool; i_data : Data Doc }.

Arguments i_success {Doc} _.
Arguments i_data {Doc} _.

Section Handlers.

Context {Doc Body : Type}.
Variable m : Model Doc Body.

Definition Ran : Type := (list (Op Doc Body) * Outcome (ItemBody Doc))%type.

Definition getBootcamp (id : string) : Ran :=
  match m_findById m id with
  | None => ([OFindById id], Rejected StorageError)
  | Some None => ([OFindById id], Next (Bootcamps.not_found id))
  | Some (Some bootcamp) =>
      ([OFindById id],
       Respond 200 {| i_success := true; i_data := Document bootcamp |})
  end.

Definition createBootcamp (body : Body) : Ran :=
  match m_create m body with
  | None => ([OCreate body], Rejected StorageError)
  | Some bootcamp =>
      ([OCreate body],
       Respond 201 {| i_success := true; i_data := Document bootcamp |})
  end.

Definition updateBootcamp (id : string) (body : Body) : Ran :=
  match m_findByIdAndUpdate m id body with
  | None => ([OFindByIdAndUpdate id body], Rejected StorageError)
  | Some None => ([OFindByIdAndUpdate id body], Next (Bootcamps.not_found id))
  | Some (Some bootcamp) =>
      ([OFindByIdAndUpdate id body],
       Respond 200 {| i_success := true; i_data := Document bootcamp |})
  end.

Definition deleteBootcamp (id : string) : Ran :=
  match m_findById m id with
  | None => ([OFindById id], Rejected StorageError)
  | Some None => ([OFindById id], Next (Bootcamps.not_found id))
  | Some (Some bootcamp) =>
      if m_remove m bootcamp then
        ([OFindById id; ORemove bootcamp],
         Respond 200 {| i_success := true; i_data := EmptyObject |})
      else ([OFindById id; ORemove bootcamp], Rejected StorageError)
  end.

End Handlers.

End Crud.

(** ** The router of the resource (routes/bootcamps.js)

    A path is the list of its segments below the mount point of the
    router, already decoded ([/radius/02118/10] is
    [["radius"; "02118"; "10"]]); a trailing slash makes no segment.  The
    layers are tried in the order of their registration; a mounted
    router that hands the request back lets the later layers try.  A literal
    segment is compared without regard to case and a parameter takes one
    segment that is not empty, as the router does with its default
    options.  The methods are the four that the file registers. *)

Module Router.

Import Char.

Inductive Method : Type := GET | POST | PUT | DELETE.

Inductive Segment : Type :=
| Lit (text : string)
| Param (name : string).

Inductive Middleware : Type :=
| advancedResults (model populate : string)
| protect
| authorise (roles : list string).

Inductive Controller : Type :=
| getBootcamps
| getBootcamp
| createBootcamp
| updateBootcamp
| deleteBootcamp
| getBootcampsInRadius
| bootcampPhotoUpload.

Inductive Layer : Type :=
| Use (pattern : list Segment) (router : string)
| Route (pattern : list Segment)
        (handlers : list (Method * (list Middleware * Controller))).

Definition guard : list Middleware := [protect; authorise ["publisher"; "admin"]].

Definition layers : list Layer :=
  [ Use [Param "bootcampId"; Lit "courses"] "courseRouter";
    Route [Lit "radius"; Param "zipcode"; Param "distance"]
          [(GET, ([], getBootcampsInRadius))];
    Route []
          [(GET, ([advancedResults "Bootcamp" "courses"], getBootcamps));
           (POST, (guard, createBootcamp))];
    Route [Param "id"]
          [(GET, ([], getBootcamp));
           (PUT, (guard, updateBootcamp));
           (DELETE, (guard, deleteBootcamp))];
    Route [Param "id"; Lit "photo"]
          [(PUT, (guard, bootcampPhotoUpload))] ].

Definition lower (c : ascii) : ascii :=
  if in_range 65 90 c then ascii_of_N (code c + 32) else c.

Fixpoint same_text (a b : string) : bool :=
  match a, b with
  | EmptyString, EmptyString => true
  | String x a', String y b' =>
      (Ascii.eqb (lower x) (lower y) && same_text a' b')%bool
  | _, _ => false
  end.

Definition match_segment (seg : Segment) (text : string) :
  option (list (string * string)) :=
  match seg with
  | Lit l => if same_text l text then Some [] else None
  | Param n =>
      match text with
      | EmptyString => None
      | _ => Some [(n, text)]
      end
  end.

(** The pattern against the start of the path: the parameters and the
    segments that are left. *)
Fixpoint match_prefix (pattern : list Segment) (path : list string) :
  option (list (string * string) * list string) :=
  match pattern with
  | [] => Some ([], path)
  | seg :: pattern' =>
      match path with
      | [] => None
      | text :: path' =>
          match match_segment seg text with
          | Some ps =>
              match match_prefix pattern' path' with
              | Some (ps', rest) => Some ((ps ++ ps')%list, rest)
              | None => None
              end
          | None => None
          end
      end
  end.

Definition method_eqb (a b : Method) : bool :=
  match a, b with
  | GET, GET | POST, POST | PUT, PUT | DELETE, DELETE => true
  | _, _ => false
  end.

Fixpoint handler_of (m : Method)
         (handlers : list (Method * (list Middleware * Controller))) :
  option (list Middleware * Controller) :=
  match handlers with
  | [] => None
  | (m', h) :: handlers' => if method_eqb m m' then Some h else handler_of m handlers'
  end.

Inductive Target : Type :=
| Handle (before : list Middleware) (c : Controller) (params : list (string * string))
| Mount (router : string) (params : list (string * string)) (rest : list string)
| NoRoute.

(** [passes router m params rest] tells whether the mounted router hands
    the request back (it has no route for it, or its handlers call
    next); the layers after the mount are tried then.  The router of the
    courses is not part of these sources, so its answer is taken as
    given. *)
Fixpoint dispatch_in (passes : string -> Method -> list (string * string)
                               -> list string -> bool)
         (ls : list Layer) (m : Method) (path : list string) : Target :=
  match ls with
  | [] => NoRoute
  | Use pattern router :: ls' =>
      match match_prefix pattern path with
      | Some (ps, rest) =>
          if passes router m ps rest then dispatch_in passes ls' m path
          else Mount router ps rest
      | None => dispatch_in passes ls' m path
      end
  | Route pattern handlers :: ls' =>
      match match_prefix pattern path with
      | Some (ps, []) =>
          match handler_of m handlers with
          | Some (before, c) => Handle before c ps
          | None => dispatch_in passes ls' m path
          end
      | _ => dispatch_in passes ls' m path
      end
  end.

Definition dispatch (passes : string -> Method -> list (string * string)
                              -> list string -> bool)
           (m : Method) (path : list string) : Target :=
  dispatch_in passes layers m path.

End Router.

(** ** More worlds to run the handlers on *)

Module Samples.

(** The demo collection with MAX_FILE_UPLOAD not set. *)
Definition unlimited : World Demo.Doc :=
  {| documents := documents Demo.world;
     matches := matches Demo.world;
     exec := exec Demo.world;
     find_geo := find_geo Demo.world;
     findById := findById Demo.world;
     doc_id := doc_id Demo.world;
     findByIdAndUpdate := findByIdAndUpdate Demo.world;
     geocode := geocode Demo.world;
     mv := mv Demo.world;
     MAX_FILE_UPLOAD := None;
     MAX_FILE_UPLOAD_text := "undefined";
     FILE_UPLOAD_PATH := FILE_UPLOAD_PATH Demo.world;
     path_ext := path_ext Demo.world |}.

(** The demo collection with a geocoder that knows no place. *)
Definition nowhere : World Demo.Doc :=
  {| documents := documents Demo.world;
     matches := matches Demo.world;
     exec := exec Demo.world;
     find_geo := find_geo Demo.world;
     findById := findById Demo.world;
     doc_id := doc_id Demo.world;
     findByIdAndUpdate := findByIdAndUpdate Demo.world;
     geocode := fun _ => Some [];
     mv := mv Demo.world;
     MAX_FILE_UPLOAD := MAX_FILE_UPLOAD Demo.world;
     MAX_FILE_UPLOAD_text := MAX_FILE_UPLOAD_text Demo.world;
     FILE_UPLOAD_PATH := FILE_UPLOAD_PATH Demo.world;
     path_ext := path_ext Demo.world |}.

(** The demo collection as the model of the handlers of one bootcamp;
    a body is a document. *)
Definition model : Crud.Model Demo.Doc Demo.Doc :=
  {| Crud.m_findById := findById Demo.world;
     Crud.m_create := fun body => Some body;
     Crud.m_findByIdAndUpdate := fun id body =>
       match findById Demo.world id with
       | Some (Some _) => Some (Some body)
       | other => other
       end;
     Crud.m_remove := fun _ => true |}.

End Samples.

(** * Properties *)

(** ** The list handler: what a response tells about the request *)

Section ListHandler.

Import Bootcamps.

Context {Doc : Type}.
Variable w : World Doc.

(** A response of [getBootcamps] has status 200; the filter was read
    back, the count and the query were awaited in this order, and the
    body carries the pagination computed from the unconditional count. *)
Lemma getBootcamps_respond (query : object) (st : Z) (b : ListBody Doc) :
  outcome (getBootcamps w query) = Respond st b ->
  exists q found,
    filter_of query = Some (q_filter q)
    /\ q_skip q = startIndex (page_of query) (limit_of query)
    /\ q_limit q = limit_of query
    /\ exec w q = Some found
    /\ calls (getBootcamps w query) = [CCountDocuments; CFind q]
    /\ st = 200%Z
    /\ data b = found
    /\ count b = List.length found
    /\ pagination b
       = paginate (page_of query) (limit_of query) (countDocuments w).
Proof.
  unfold getBootcamps.
  destruct (filter_of query) as [f|]; [|discriminate].
  destruct (truthy (get "select" query));
    destruct (truthy (get "sort" query));
    try destruct (split_join (get "select" query)) as [fields|];
    try destruct (split_join (get "sort" query)) as [sortBy|];
    destruct (Number.text_of (get "page" query)) as [pageText|];
    destruct (Number.text_of (get "limit" query)) as [limitText|];
    cbn; try discriminate;
    match goal with
    | |- context [exec w ?q] =>
        destruct (exec w q) as [found|] eqn:E; cbn; [|discriminate];
        intros H; injection H as <- <-;
        exists q, found; cbn; repeat split; assumption
    end.
Qed.

(** The only filter that reaches the model is the one read back from the
    rewritten text. *)
Lemma getBootcamps_find (query : object) (q : Query) :
  In (CFind q) (calls (getBootcamps w query)) ->
  filter_of query = Some (q_filter q).
Proof.
  unfold getBootcamps.
  destruct (filter_of query) as [f|]; [|intros []].
  destruct (truthy (get "select" query));
    destruct (truthy (get "sort" query));
    try destruct (split_join (get "select" query)) as [fields|];
    try destruct (split_join (get "sort" query)) as [sortBy|];
    destruct (Number.text_of (get "page" query)) as [pageText|];
    destruct (Number.text_of (get "limit" query)) as [limitText|];
    cbn; try (intros []);
    match goal with
    | |- context [exec w ?q0] => destruct (exec w q0) as [found|]
    end; cbn;
    (intros [H|[H|[]]]; [discriminate H | injection H as <-; reflexivity]).
Qed.

End ListHandler.

(** ** Pagination *)

Section Pagination.

Import Bootcamps.

Context {Doc : Type}.
Variable w : World Doc.

(** C2, as the code has it: in every response of the list handler to a
    request whose page, limit, page+1 and page*limit are safe integers
    (below 2^53 in magnitude, where the numbers of the code are exact),
    pagination.next is present if and only if page*limit is below the
    number of all documents of the collection (the count is taken without
    the filter), and when present it is {page: page+1, limit}. *)
Theorem next_iff_below_collection_count (query : object) (st : Z) (b : ListBody Doc) :
  Number.safe (page_of query) -> Number.safe (limit_of query) ->
  Number.safe (page_of query + 1) ->
  Number.safe (page_of query * limit_of query) ->
  outcome (getBootcamps w query) = Respond st b ->
  (next (pagination b) <> None
   <-> (page_of query * limit_of query < Z.of_nat (List.length (documents w)))%Z)
  /\ (forall p, next (pagination b) = Some p ->
                p = {| page := page_of query + 1; limit := limit_of query |})
  /\ In CCountDocuments (calls (getBootcamps w query)).
Proof.
  intros _ _ _ _ H.
  destruct (getBootcamps_respond w query st b H)
    as (q & found & _ & _ & _ & _ & Hcalls & _ & _ & _ & Hp).
  rewrite Hp, Hcalls. unfold paginate, endIndex, countDocuments. cbn [next].
  destruct (Z.ltb_spec (page_of query * limit_of query)
              (Z.of_nat (List.length (documents w)))) as [Hlt|Hge].
  - split; [split; [intros _; assumption | intros _; discriminate]|].
    split; [|now left].
    intros p Hp'. now injection Hp' as <-.
  - split; [split; [intros Hn; now contradiction Hn | intros Hlt; lia]|].
    split; [|now left].
    intros p Hp'. discriminate.
Qed.

(** C4, as the code has it: for a request whose page, limit, page-1
    and (page-1)*limit are safe integers (below 2^53 in magnitude, where
    the numbers of the code are exact), the query skips (page-1)*limit
    documents, pagination.prev is present if and only if that number is
    positive, and when present it is {page: page-1, limit}; for a
    positive limit the number is positive exactly when page is above 1. *)
Theorem prev_iff_skip_positive (query : object) (st : Z) (b : ListBody Doc) :
  Number.safe (page_of query) -> Number.safe (limit_of query) ->
  Number.safe (page_of query - 1) ->
  Number.safe ((page_of query - 1) * limit_of query) ->
  outcome (getBootcamps w query) = Respond st b ->
  exists q,
    In (CFind q) (calls (getBootcamps w query))
    /\ q_skip q = ((page_of query - 1) * limit_of query)%Z
    /\ (prev (pagination b) <> None <-> (q_skip q > 0)%Z)
    /\ (forall p, prev (pagination b) = Some p ->
                  p = {| page := page_of query - 1; limit := limit_of query |})
    /\ ((0 < limit_of query)%Z -> ((q_skip q > 0)%Z <-> (page_of query > 1)%Z)).
Proof.
  intros _ _ _ _ H.
  destruct (getBootcamps_respond w query st b H)
    as (q & found & _ & Hskip & _ & _ & Hcalls & _ & _ & _ & Hp).
  exists q. rewrite Hp, Hcalls, Hskip. unfold paginate, startIndex. cbn [prev].
  split; [right; now left|]. split; [reflexivity|].
  destruct (Z.gtb_spec ((page_of query - 1) * limit_of query) 0) as [Hgt|Hle].
  - split; [split; [intros _; lia | intros _; discriminate]|].
    split; [intros p Hp'; now injection Hp' as <-|].
    intros Hl. split; intros _; [nia | lia].
  - split; [split; [intros Hn; now contradiction Hn | intros Hlt; lia]|].
    split; [intros p Hp'; discriminate|].
    intros Hl. split; intros Hx; [lia | nia].
Qed.

End Pagination.

Section PageAndLimit.

Import Bootcamps.

Lemma or_default_nonzero (n : option Z) (d : Z) :
  d <> 0%Z -> Number.or_default n d <> 0%Z.
Proof.
  intros Hd. destruct n as [[| p | p]|]; cbn; try assumption; discriminate.
Qed.

Lemma or_default_cases (n : option Z) (d : Z) :
  Number.or_default n d = d \/ n = Some (Number.or_default n d).
Proof.
  destruct n as [[| p | p]|]; cbn; auto.
Qed.

(** parseInt on some texts: a leading integer is read and the rest is
    dropped, the sign is kept, and a text without a leading digit is NaN. *)
Example parseInt_samples :
  map Number.parseInt_string ["12"; " 7up"; "-3"; "+4"; "0"; "-0"; "abc"; ""; "1e3"; "undefined"]
  = [Some 12; Some 7; Some (-3); Some 4; Some 0; Some 0; None; None; Some 1; None]%Z.
Proof.
  reflexivity.
Qed.

End PageAndLimit.

Section PaginationOnTheDemoCollection.

Import Bootcamps.

(** The list handler on the demo collection, for ?name=a&limit=1. *)
Lemma next_iff_below_collection_count_witness :
  let query := [("name", VStr "a"); ("limit", VStr "1")] in
  exists b,
    outcome (getBootcamps Demo.world query) = Respond 200 b
    /\ (next (pagination b) <> None
        <-> (page_of query * limit_of query
             < Z.of_nat (List.length (documents Demo.world)))%Z).
Proof.
  intros query.
  assert (H : outcome (getBootcamps Demo.world query)
              = Respond 200 {| success := true; count := 1;
                               pagination := {| next := Some {| page := 2; limit := 1 |};
                                                prev := None |};
                               data := [[("_id", "b1"); ("name", "a")]] |})
    by (vm_compute; reflexivity).
  eexists. split; [exact H|].
  exact (proj1 (next_iff_below_collection_count Demo.world query 200 _
                  eq_refl eq_refl eq_refl eq_refl H)).
Defined.

(** C2 as stated fails: with ?name=a&limit=1 one document of three
    matches the filter, so page*limit = 1 is not below the number of
    matching records, and yet pagination.next is present. *)
Lemma next_counts_unfiltered_counterexample :
  let query := [("name", VStr "a"); ("limit", VStr "1")] in
  exists f b,
    filter_of query = Some f
    /\ outcome (getBootcamps Demo.world query) = Respond 200 b
    /\ let totalCount :=
         Z.of_nat (List.length (filter (matches Demo.world f) (documents Demo.world))) in
       totalCount = 1%Z
       /\ next (pagination b) = Some {| page := 2; limit := 1 |}
       /\ ~ (next (pagination b) <> None
             <-> (page_of query * limit_of query < totalCount)%Z).
Proof.
  cbv zeta. eexists. eexists.
  split; [vm_compute; reflexivity|].
  split; [vm_compute; reflexivity|].
  split; [vm_compute; reflexivity|].
  split; [vm_compute; reflexivity|].
  vm_compute. intros [H _].
  assert (Hn : Some {| page := 2; limit := 1 |} = None -> False) by discriminate.
  specialize (H Hn). discriminate H.
Qed.

(** The list handler on the demo collection, for ?page=2&limit=1. *)
Lemma prev_iff_skip_positive_witness :
  exists b q,
    outcome (getBootcamps Demo.world [("page", VStr "2"); ("limit", VStr "1")])
    = Respond 200 b
    /\ q_skip q = 1%Z
    /\ prev (pagination b) = Some {| page := 1; limit := 1 |}.
Proof.
  eexists.
  destruct (prev_iff_skip_positive Demo.world
              [("page", VStr "2"); ("limit", VStr "1")] 200 _
              eq_refl eq_refl eq_refl eq_refl eq_refl)
    as (q & _ & Hskip & _ & _ & _).
  exists q. split; [reflexivity|]. split; [exact Hskip | reflexivity].
Defined.

(** C4 as stated fails: with ?page=-1&limit=-5 the handler answers with
    pagination.prev = {page: -2, limit: -5} although page is not above 1. *)
Lemma prev_without_page_above_one_counterexample :
  let query := [("page", VStr "-1"); ("limit", VStr "-5")] in
  exists b,
    outcome (getBootcamps Demo.world query) = Respond 200 b
    /\ prev (pagination b) = Some {| page := -2; limit := -5 |}
    /\ ~ (prev (pagination b) <> None <-> (page_of query > 1)%Z).
Proof.
  cbv zeta. eexists.
  split; [vm_compute; reflexivity|].
  split; [vm_compute; reflexivity|].
  vm_compute. intros [H _].
  assert (Hn : Some {| page := -2; limit := -5 |} = None -> False) by discriminate.
  specialize (H Hn). discriminate H.
Qed.

(** C3 as stated fails: ?page=-2&limit=-5 gives page = -2 and
    limit = -5. *)
Lemma negative_page_and_limit_counterexample :
  let query := [("page", VStr "-2"); ("limit", VStr "-5")] in
  page_of query = (-2)%Z
  /\ limit_of query = (-5)%Z
  /\ ~ (1 <= page_of query /\ 1 <= limit_of query)%Z.
Proof.
  cbv zeta. split; [reflexivity|]. split; [reflexivity|].
  vm_compute. intros [H _]. apply H. reflexivity.
Qed.

End PaginationOnTheDemoCollection.

(** ** The radius handler *)

Section Radius.

Import Bootcamps.

Context {Doc : Type}.
Variable w : World Doc.

(** C8: the radius of the sphere query is the distance divided by 6378,
    around the first location of the geocoder as [[lng, lat]]; for the
    distance 6378 it is 1. *)
Theorem radius_is_distance_over_6378 (zipcode : string) (distance : float)
        (loc0 : Location) (others : list Location) :
  geocode w zipcode = Some (loc0 :: others) ->
  calls (getBootcampsInRadius w zipcode distance)
  = [CGeocode zipcode;
     CFindGeo {| center_lng := longitude loc0;
                 center_lat := latitude loc0;
                 sphere_radius := (distance / 6378)%float |}]
  /\ radius_of 6378%float = 1%float.
Proof.
  intros Hgeo. split; [|reflexivity].
  unfold getBootcampsInRadius. rewrite Hgeo. cbn.
  destruct (find_geo w _); reflexivity.
Qed.

(** C7, as the code has it: the handler checks nothing about the
    distance.  It never hands an ErrorResponse to next, and once the
    geocoder has answered with a location the sphere query goes to the
    model with the radius distance / 6378, whatever the distance is; for
    NaN, the number of a distance that is not numeric, the radius is NaN. *)
Theorem radius_handler_checks_no_distance (zipcode : string) (distance : float) :
  (forall e, outcome (getBootcampsInRadius w zipcode distance) <> Next e)
  /\ (forall loc0 others,
        geocode w zipcode = Some (loc0 :: others) ->
        In (CFindGeo {| center_lng := longitude loc0;
                        center_lat := latitude loc0;
                        sphere_radius := radius_of distance |})
           (calls (getBootcampsInRadius w zipcode distance)))
  /\ PrimFloat.is_nan (radius_of PrimFloat.nan) = true.
Proof.
  split; [|split].
  - intros e. unfold getBootcampsInRadius.
    destruct (geocode w zipcode) as [[|loc0 others]|]; cbn; try discriminate.
    destruct (find_geo w _); cbn; discriminate.
  - intros loc0 others Hgeo. unfold getBootcampsInRadius. rewrite Hgeo. cbn.
    destruct (find_geo w _); cbn; right; now left.
  - reflexivity.
Qed.

End Radius.

Section RadiusOnTheDemoCollection.

Import Bootcamps.

(** The radius handler on the demo collection, for the distance 6378. *)
Lemma radius_is_distance_over_6378_witness :
  calls (getBootcampsInRadius Demo.world "02118" 6378%float)
  = [CGeocode "02118";
     CFindGeo {| center_lng := (-71.5)%float;
                 center_lat := 42.25%float;
                 sphere_radius := 1%float |}].
Proof.
  destruct (radius_is_distance_over_6378 Demo.world "02118" 6378%float
              {| latitude := 42.25%float; longitude := (-71.5)%float |} []
              eq_refl) as [Hcalls _].
  exact Hcalls.
Defined.

Lemma radius_handler_checks_no_distance_witness :
  In (CFindGeo {| center_lng := (-71.5)%float;
                  center_lat := 42.25%float;
                  sphere_radius := Bootcamps.radius_of 12%float |})
     (calls (getBootcampsInRadius Demo.world "02118" 12%float)).
Proof.
  destruct (radius_handler_checks_no_distance Demo.world "02118" 12%float)
    as (_ & H & _).
  exact (H {| latitude := 42.25%float; longitude := (-71.5)%float |} [] eq_refl).
Defined.

(** C7 as stated fails: for a distance that is not numeric, whose number
    is NaN, the handler sends the sphere query to the model with the
    radius NaN and answers 200 with what the model returns; no error with
    status 400 is raised. *)
Lemma radius_not_numeric_counterexample :
  let r := getBootcampsInRadius Demo.world "02118" PrimFloat.nan in
  (exists g, calls r = [CGeocode "02118"; CFindGeo g]
             /\ PrimFloat.is_nan (sphere_radius g) = true)
  /\ (exists b, outcome r = Respond 200 b)
  /\ ~ (exists e, outcome r = Next e /\ statusCode e = 400%Z).
Proof.
  cbv zeta. split; [|split].
  - eexists. split; [vm_compute; reflexivity | reflexivity].
  - eexists. vm_compute. reflexivity.
  - intros (e & He & _). vm_compute in He. discriminate He.
Qed.

End RadiusOnTheDemoCollection.

(** ** The photo upload handler *)

Section PhotoUpload.

Import Bootcamps.

Context {Doc : Type}.
Variable w : World Doc.

(** C9: with an existing bootcamp and an uploaded image, the size error
    (status 400) is the outcome exactly when the size is strictly above
    the configured maximum; a file of at most the maximum, so also one of
    exactly the maximum, is moved to the upload directory, and no error
    with status 400 follows. *)
Theorem size_check_is_strict (id : string) (fs : list (string * File))
        (b : Doc) (file : File) (m : Z) :
  findById w id = Some (Some b) ->
  field "file" fs = Some file ->
  String.prefix "image" (mimetype file) = true ->
  MAX_FILE_UPLOAD w = Some m ->
  let r := bootcampPhotoUpload w id (Some fs) in
  ((size file > m)%Z <->
   outcome r = Next {| message := "Please upload an image less than "
                                  ++ MAX_FILE_UPLOAD_text w ++ " bytes";
                       statusCode := 400 |})
  /\ ((size file <= m)%Z ->
      In (CMv (FILE_UPLOAD_PATH w ++ "/" ++ "photo_" ++ doc_id w b
               ++ path_ext w (name file))) (calls r)
      /\ forall e, outcome r = Next e -> statusCode e = 500%Z)
  /\ (size file = m ->
      forall e, outcome r = Next e -> statusCode e <> 400%Z).
Proof.
  intros Hb Hf Himg Hmax r. subst r. unfold bootcampPhotoUpload.
  rewrite Hb. cbn. rewrite Hf. cbn. rewrite Himg, Hmax. cbn.
  destruct (Z.gtb_spec (size file) m) as [Hgt|Hle]; cbn.
  - split; [split; intros _; [reflexivity | lia]|]. split; intros; lia.
  - destruct (mv w _); [destruct (findByIdAndUpdate w id _)|]; cbn;
      (split; [split; intros Hx; [lia | discriminate Hx]|]);
      (split;
       [intros _; split;
        [right; left; reflexivity
        |intros e He; try discriminate He; injection He as <-; reflexivity]
       |intros _ e He; try discriminate He; injection He as <-; discriminate]).
Qed.

(** C10: the checks come in the order existence, file, mimetype, size.
    For an id that no bootcamp has, the outcome is the not-found error
    with status 404 and nothing but the lookup was called, whatever the
    request carries as files; with a bootcamp and no files it is the
    missing-file error; with a file that is not an image it is the
    image error whatever the size; the size error needs an image. *)
Theorem upload_checks_in_order (id : string) (files : option (list (string * File))) :
  (findById w id = Some None ->
   outcome (bootcampPhotoUpload w id files) = Next (not_found id)
   /\ statusCode (not_found id) = 404%Z
   /\ calls (bootcampPhotoUpload w id files) = [CFindById id])
  /\ (forall b, findById w id = Some (Some b) -> files = None ->
      outcome (bootcampPhotoUpload w id files)
      = Next {| message := "Please upload a file"; statusCode := 400 |})
  /\ (forall b fs file,
        findById w id = Some (Some b) -> files = Some fs ->
        field "file" fs = Some file ->
        String.prefix "image" (mimetype file) = false ->
        outcome (bootcampPhotoUpload w id files)
        = Next {| message := "Please upload an image file"; statusCode := 400 |})
  /\ (forall b fs file,
        findById w id = Some (Some b) -> files = Some fs ->
        field "file" fs = Some file ->
        String.prefix "image" (mimetype file) = true ->
        exceeds (size file) (MAX_FILE_UPLOAD w) = true ->
        outcome (bootcampPhotoUpload w id files)
        = Next {| message := "Please upload an image less than "
                             ++ MAX_FILE_UPLOAD_text w ++ " bytes";
                  statusCode := 400 |}).
Proof.
  unfold bootcampPhotoUpload. split; [|split; [|split]].
  - intros ->. cbn. repeat split.
  - intros b -> ->. reflexivity.
  - intros b fs file -> -> Hf Himg. cbn. rewrite Hf. cbn. rewrite Himg. reflexivity.
  - intros b fs file -> -> Hf Himg Hex. cbn. rewrite Hf. cbn.
    rewrite Himg, Hex. reflexivity.
Qed.

End PhotoUpload.

Section PhotoUploadOnTheDemoCollection.

Import Bootcamps.

(** An image of exactly the maximum on the demo collection. *)
Lemma size_check_is_strict_witness :
  In (CMv "./public/uploads/photo_b1.jpg")
     (calls (bootcampPhotoUpload Demo.world "b1" (Some [("file", Demo.photo 1000000)])))
  /\ outcome (bootcampPhotoUpload Demo.world "b1" (Some [("file", Demo.photo 1000000)]))
     = Respond 200 {| p_success := true; p_data := "photo_b1.jpg" |}.
Proof.
  destruct (size_check_is_strict Demo.world "b1" [("file", Demo.photo 1000000)]
              [("_id", "b1"); ("name", "a")] (Demo.photo 1000000) 1000000
              eq_refl eq_refl eq_refl eq_refl) as (_ & Hle & _).
  split; [apply Hle; cbn; lia | reflexivity].
Defined.

(** An unknown id with no file, and with a file that is not an image. *)
Lemma upload_checks_in_order_witness :
  outcome (bootcampPhotoUpload Demo.world "nobody" None)
  = Next (not_found "nobody")
  /\ outcome (bootcampPhotoUpload Demo.world "nobody"
                (Some [("file", {| name := "a.txt"; mimetype := "text/plain";
                                   size := 5000000 |})]))
     = Next (not_found "nobody").
Proof.
  split.
  - destruct (upload_checks_in_order Demo.world "nobody" None) as (H & _).
    apply H. reflexivity.
  - destruct (upload_checks_in_order Demo.world "nobody"
                (Some [("file", {| name := "a.txt"; mimetype := "text/plain";
                                   size := 5000000 |})])) as (H & _).
    apply H. reflexivity.
Defined.

End PhotoUploadOnTheDemoCollection.

(** ** The filter: stringify, rewrite, read back *)

Section FilterByExample.

Import Bootcamps.

(** C1 on two requests.  For ?price[gte]=5&page=2 the operator of the
    comparison object gets its sigil and nothing else changes.  For
    ?name=sign in, a value that is no comparison token is changed: the
    filter asks for the name [sign $in].  A field that is named like an
    operator, and a plain value that is one of the five words, get the
    sigil as well. *)
Theorem plain_value_is_rewritten :
  filter_of [("price", VObj [("gte", VStr "5")]); ("page", VStr "2")]
  = Some (VObj [("price", VObj [("$gte", VStr "5")])])
  /\ filter_of [("name", VStr "sign in")]
     = Some (VObj [("name", VStr "sign $in")])
  /\ filter_of [("in", VStr "lt")]
     = Some (VObj [("$in", VStr "$lt")])
  /\ map Text.sigil ("sign in" :: Regex.alternatives)
     = ["sign $in"; "$gt"; "$gte"; "$lt"; "$lte"; "$in"].
Proof.
  repeat split; vm_compute; reflexivity.
Qed.

End FilterByExample.

(** *** Facts on strings *)

Section Strings.

Lemma append_assoc (a b c : string) : (a ++ b) ++ c = a ++ (b ++ c).
Proof.
  induction a as [|x a IH]; cbn; [reflexivity | now rewrite IH].
Qed.

Lemma append_empty_r (a : string) : a ++ "" = a.
Proof.
  induction a as [|x a IH]; cbn; [reflexivity | now rewrite IH].
Qed.

Lemma length_append (a b : string) :
  String.length (a ++ b) = String.length a + String.length b.
Proof.
  induction a as [|x a IH]; cbn; [reflexivity | now rewrite IH].
Qed.

End Strings.

(** *** The regular expression on a text cut at a character that is not
    a word character *)

Section RegexCut.

Import Char Regex Text.

Lemma alternatives_all_word : Forall (fun a => all_word a = true) alternatives.
Proof.
  repeat constructor.
Qed.

Lemma strip_prefix_length (a s r : string) :
  strip_prefix a s = Some r -> s = a ++ r.
Proof.
  revert s. induction a as [|x a IH]; intros s; cbn.
  - now intros [= ->].
  - destruct s as [|y s]; [discriminate|].
    destruct (Ascii.eqb_spec x y) as [<-|]; [|discriminate].
    intros H. now rewrite (IH _ H).
Qed.

Lemma strip_prefix_cut (a s rest : string) (c : ascii) :
  all_word a = true -> is_word c = false ->
  strip_prefix a (s ++ String c rest)
  = option_map (fun r => r ++ String c rest) (strip_prefix a s).
Proof.
  intros Ha Hc. revert s. induction a as [|x a IH]; intros s; cbn.
  - reflexivity.
  - cbn in Ha. apply andb_prop in Ha as [Hx Ha].
    destruct s as [|y s]; cbn.
    + destruct (Ascii.eqb_spec x c) as [->|]; [congruence | reflexivity].
    + destruct (Ascii.eqb x y); [now apply IH | reflexivity].
Qed.

Lemma word_boundary_cut (r rest : string) (c : ascii) :
  is_word c = false ->
  word_boundary true (r ++ String c rest) = word_boundary true r.
Proof.
  intros Hc. destruct r; cbn; [now rewrite Hc | reflexivity].
Qed.

Lemma match_group_cut (alts : list string) (s rest : string) (c : ascii) :
  Forall (fun a => all_word a = true) alts -> is_word c = false ->
  match_group alts (s ++ String c rest) = match_group alts s.
Proof.
  intros Halts Hc. induction Halts as [|a alts Ha _ IH]; cbn [match_group]; [reflexivity|].
  rewrite (strip_prefix_cut a s rest c Ha Hc).
  destruct (strip_prefix a s) as [r|]; cbn [option_map]; [|exact IH].
  rewrite (word_boundary_cut r rest c Hc). now rewrite IH.
Qed.

Lemma match_group_in (alts : list string) (s m : string) :
  match_group alts s = Some m ->
  In m alts /\ exists r, s = m ++ r /\ word_boundary true r = true.
Proof.
  induction alts as [|a alts IH]; cbn [match_group]; [discriminate|].
  destruct (strip_prefix a s) as [r|] eqn:E.
  - destruct (word_boundary true r) eqn:Hb.
    + intros [= <-]. split; [now left|].
      exists r. split; [now apply strip_prefix_length | exact Hb].
    + intros H. destruct (IH H) as (Hin & Hr). split; [now right | exact Hr].
  - intros H. destruct (IH H) as (Hin & Hr). split; [now right | exact Hr].
Qed.

Lemma match_at_in (b : bool) (s m : string) :
  match_at b s = Some m ->
  In m alternatives /\ exists r, s = m ++ r /\ word_boundary true r = true.
Proof.
  unfold match_at. destruct (word_boundary b s); [|discriminate].
  apply match_group_in.
Qed.

(** No alternative starts at a character outside g, l and i. *)
Lemma match_group_head (c : ascii) (s : string) :
  Ascii.eqb "g" c = false -> Ascii.eqb "l" c = false -> Ascii.eqb "i" c = false ->
  match_group alternatives (String c s) = None.
Proof.
  intros Hg Hl Hi. unfold alternatives. cbn [match_group strip_prefix].
  now rewrite Hg, Hl, Hi.
Qed.

Lemma not_word_not_head (c : ascii) :
  is_word c = false ->
  Ascii.eqb "g" c = false /\ Ascii.eqb "l" c = false /\ Ascii.eqb "i" c = false.
Proof.
  intros Hc.
  repeat split;
    match goal with
    | |- Ascii.eqb ?x c = false =>
        destruct (Ascii.eqb_spec x c) as [<-|]; [discriminate Hc | reflexivity]
    end.
Qed.

Lemma match_at_not_word (b : bool) (c : ascii) (s : string) :
  is_word c = false -> match_at b (String c s) = None.
Proof.
  intros Hc. unfold match_at.
  destruct (not_word_not_head c Hc) as (Hg & Hl & Hi).
  rewrite (match_group_head c s Hg Hl Hi). now destruct (word_boundary _ _).
Qed.

Lemma match_at_after_word (c : ascii) (s : string) :
  is_word c = true -> match_at true (String c s) = None.
Proof.
  intros Hc. unfold match_at, word_boundary. cbn. now rewrite Hc.
Qed.

Lemma match_at_cut (b : bool) (x c : ascii) (s rest : string) :
  is_word c = false ->
  match_at b (String x s ++ String c rest) = match_at b (String x s).
Proof.
  intros Hc. unfold match_at.
  rewrite (match_group_cut alternatives (String x s) rest c alternatives_all_word Hc).
  reflexivity.
Qed.

Lemma match_at_length (b : bool) (s m : string) :
  match_at b s = Some m -> 1 <= String.length m <= String.length s.
Proof.
  intros H. destruct (match_at_in b s m H) as (Hin & r & -> & _).
  rewrite length_append. split; [|lia].
  cbn in Hin. decompose [or] Hin; subst; cbn; try lia; contradiction.
Qed.

(** The text before a character that is not a word character is
    rewritten on its own, and the scan goes on behind that character as
    from the start. *)
Lemma replace_from_cut (s rest : string) (c : ascii) :
  is_word c = false ->
  forall (b : bool) (k : nat),
    k <= String.length s ->
    replace_from b k (s ++ String c rest)
    = replace_from b k s ++ String c (replace_from false 0 rest).
Proof.
  intros Hc. induction s as [|x s IH]; intros b k Hk.
  - cbn in Hk. assert (k = 0) as -> by lia.
    cbn [append replace_from].
    rewrite (match_at_not_word b c rest Hc). now rewrite Hc.
  - destruct k as [|k].
    + change (String x s ++ String c rest) with (String x (s ++ String c rest)).
      cbn [replace_from].
      change (String x (s ++ String c rest)) with (String x s ++ String c rest).
      rewrite (match_at_cut b x c s rest Hc).
      destruct (match_at b (String x s)) as [m|] eqn:E.
      * pose proof (match_at_length _ _ _ E) as Hm. cbn in Hm.
        cbn [append]. rewrite IH by lia. reflexivity.
      * cbn [append]. rewrite IH by lia. reflexivity.
    + cbn [append replace_from]. cbn in Hk. rewrite IH by lia. reflexivity.
Qed.

Lemma replace_from_not_word (b : bool) (c : ascii) (s : string) :
  is_word c = false ->
  replace_from b 0 (String c s) = String c (replace_from false 0 s).
Proof.
  intros Hc. cbn [replace_from].
  rewrite (match_at_not_word b c s Hc). now rewrite Hc.
Qed.

End RegexCut.

(** *** The text between the quotes *)

Section Bodies.

Import Char JSON Regex Text.

Lemma plain_inv (c : ascii) :
  plain c = true ->
  Ascii.eqb c dquote = false /\ Ascii.eqb c backslash = false
  /\ is_control c = false.
Proof.
  unfold plain. intros H.
  apply andb_prop in H as [H H3]. apply andb_prop in H as [H1 H2].
  apply negb_true_iff in H1, H2, H3. now repeat split.
Qed.

Lemma word_is_plain (c : ascii) : is_word c = true -> plain c = true.
Proof.
  destruct c as [[] [] [] [] [] [] [] []]; vm_compute;
    intros H; first [reflexivity | discriminate H].
Qed.

Lemma hex_val_is_word (h : ascii) (n : N) :
  hex_val h = Some n -> is_word h = true.
Proof.
  destruct h as [[] [] [] [] [] [] [] []]; vm_compute;
    intros H; first [reflexivity | discriminate H].
Qed.

Lemma simple_not_u (e : ascii) : simple e = true -> Ascii.eqb e "u" = false.
Proof.
  intros H. destruct (Ascii.eqb_spec e "u") as [->|]; [discriminate H | reflexivity].
Qed.

Lemma simple_not_head (e : ascii) :
  simple e = true ->
  Ascii.eqb "g" e = false /\ Ascii.eqb "l" e = false /\ Ascii.eqb "i" e = false.
Proof.
  intros H.
  repeat split;
    match goal with
    | |- Ascii.eqb ?x e = false =>
        destruct (Ascii.eqb_spec x e) as [<-|]; [discriminate H | reflexivity]
    end.
Qed.

Lemma hex_ok_inv (h1 h2 h3 h4 : ascii) :
  hex_ok h1 h2 h3 h4 = true ->
  exists n p,
    hex4 h1 h2 h3 h4 = Some n /\ utf8 n = Some p
    /\ is_word h1 = true /\ is_word h2 = true
    /\ is_word h3 = true /\ is_word h4 = true.
Proof.
  unfold hex_ok. destruct (hex4 h1 h2 h3 h4) as [n|] eqn:E; [|discriminate].
  destruct (utf8 n) as [p|] eqn:Ep; [|discriminate]. intros _.
  exists n, p. split; [reflexivity|]. split; [exact Ep|].
  unfold hex4 in E.
  destruct (hex_val h1) eqn:E1; [|discriminate].
  destruct (hex_val h2) eqn:E2; [|discriminate].
  destruct (hex_val h3) eqn:E3; [|discriminate].
  destruct (hex_val h4) eqn:E4; [|discriminate].
  repeat split; eapply hex_val_is_word; eassumption.
Qed.

(** JSON.parse reads a body up to the closing quote. *)
Lemma read_body (s : string) :
  body s ->
  exists d, forall rest, read_chars (s ++ String dquote rest) = Some (d, rest).
Proof.
  induction 1 as [|c s Hc _ [d IH]|e s He _ [d IH]|h1 h2 h3 h4 s Hh _ [d IH]].
  - exists EmptyString. reflexivity.
  - destruct (plain_inv c Hc) as (H1 & H2 & H3).
    exists (String c d). intros rest. cbn [append read_chars].
    now rewrite H1, H2, H3, IH.
  - unfold simple in He. destruct (unescape e) as [x|] eqn:E; [|discriminate].
    exists (String x d). intros rest. cbn [append read_chars].
    change (Ascii.eqb backslash dquote) with false.
    change (Ascii.eqb backslash backslash) with true. cbv iota.
    assert (Hu : Ascii.eqb e "u" = false)
      by (apply simple_not_u; unfold simple; now rewrite E).
    now rewrite Hu, E, IH.
  - destruct (hex_ok_inv _ _ _ _ Hh) as (n & p & E1 & E2 & _).
    exists (p ++ d). intros rest. cbn [append read_chars].
    change (Ascii.eqb backslash dquote) with false.
    change (Ascii.eqb backslash backslash) with true.
    change (Ascii.eqb "u" "u") with true. cbv iota.
    now rewrite E1, E2, IH.
Qed.

Lemma read_decode (s : string) :
  body s -> forall rest, read_chars (s ++ String dquote rest) = Some (decode s, rest).
Proof.
  intros Hs. destruct (read_body s Hs) as [d Hd]. intros rest.
  unfold decode. now rewrite (Hd EmptyString), (Hd rest).
Qed.

Lemma decode_plain (c : ascii) (s : string) :
  plain c = true -> body s -> decode (String c s) = String c (decode s).
Proof.
  intros Hc Hs. destruct (plain_inv c Hc) as (H1 & H2 & H3).
  unfold decode at 1. cbn [append read_chars].
  now rewrite H1, H2, H3, (read_decode s Hs).
Qed.

Lemma decode_simple (e x : ascii) (s : string) :
  unescape e = Some x -> body s ->
  decode (String backslash (String e s)) = String x (decode s).
Proof.
  intros E Hs. unfold decode at 1. cbn [append read_chars].
  change (Ascii.eqb backslash dquote) with false.
  change (Ascii.eqb backslash backslash) with true. cbv iota.
  assert (Hu : Ascii.eqb e "u" = false)
    by (apply simple_not_u; unfold simple; now rewrite E).
  now rewrite Hu, E, (read_decode s Hs).
Qed.

Lemma decode_hex (h1 h2 h3 h4 : ascii) (n : N) (p s : string) :
  hex4 h1 h2 h3 h4 = Some n -> utf8 n = Some p -> body s ->
  decode (String backslash
            (String "u" (String h1 (String h2 (String h3 (String h4 s))))))
  = p ++ decode s.
Proof.
  intros E1 E2 Hs. unfold decode at 1. cbn [append read_chars].
  change (Ascii.eqb backslash dquote) with false.
  change (Ascii.eqb backslash backslash) with true.
  change (Ascii.eqb "u" "u") with true. cbv iota.
  now rewrite E1, E2, (read_decode s Hs).
Qed.

Lemma has_sigil_append (p s : string) :
  has_sigil s = true -> has_sigil (p ++ s) = true.
Proof.
  intros Hs. induction p as [|x p IH]; cbn; [exact Hs|].
  rewrite IH. apply orb_true_r.
Qed.

Ltac eval_escape_char :=
  match goal with
  | |- context [escape_char ?c] =>
      let v := eval vm_compute in (escape_char c) in
      change (escape_char c) with v; cbn [append]
  end.

(** [escape] writes a body, and reading it gives the string back. *)
Lemma escape_char_body (c : ascii) (s : string) :
  body s -> body (escape_char c ++ s).
Proof.
  intros Hs.
  destruct c as [[] [] [] [] [] [] [] []]; eval_escape_char;
    first [ apply body_plain; [reflexivity | exact Hs]
          | apply body_simple; [reflexivity | exact Hs]
          | apply body_hex; [reflexivity | exact Hs] ].
Qed.

Lemma escape_body (s : string) : body (escape s).
Proof.
  induction s as [|c s IH]; cbn; [constructor | now apply escape_char_body].
Qed.

Lemma decode_escape_char (c : ascii) (s : string) :
  body s -> decode (escape_char c ++ s) = String c (decode s).
Proof.
  intros Hs.
  destruct c as [[] [] [] [] [] [] [] []]; eval_escape_char;
    first [ apply (decode_plain _ s); [reflexivity | exact Hs]
          | apply (decode_simple _ _ s); [reflexivity | exact Hs]
          | etransitivity;
            [ eapply decode_hex;
              [reflexivity | reflexivity | exact Hs]
            | reflexivity ] ].
Qed.

Lemma decode_escape (s : string) : decode (escape s) = s.
Proof.
  induction s as [|c s IH]; cbn [escape]; [reflexivity|].
  rewrite (decode_escape_char c (escape s) (escape_body s)). now rewrite IH.
Qed.

End Bodies.

(** *** The regular expression inside a string literal *)

Section RegexInBody.

Import Char JSON Regex Text.

Lemma match_at_head (b : bool) (c : ascii) (s : string) :
  Ascii.eqb "g" c = false -> Ascii.eqb "l" c = false -> Ascii.eqb "i" c = false ->
  match_at b (String c s) = None.
Proof.
  intros Hg Hl Hi. unfold match_at.
  rewrite (match_group_head c s Hg Hl Hi). now destruct (word_boundary _ _).
Qed.

(** At a match the sigil is written, then the match, and the scan goes
    on behind it. *)
Lemma replace_match (b : bool) (s m : string) :
  match_at b s = Some m ->
  all_word m = true
  /\ exists r, s = m ++ r
               /\ replace_from b 0 s = String "$" (m ++ replace_from true 0 r).
Proof.
  intros E. destruct (match_at_in b s m E) as (Hin & r & Hs & _).
  split.
  - exact (proj1 (Forall_forall _ _) alternatives_all_word m Hin).
  - exists r. split; [exact Hs|]. subst s.
    unfold alternatives in Hin. cbn [In] in Hin.
    destruct Hin as [<-|[<-|[<-|[<-|[<-|[]]]]]];
      cbn [append] in *; cbn [replace_from]; rewrite E; reflexivity.
Qed.

Lemma body_words (m r : string) :
  all_word m = true -> (body (m ++ r) <-> body r).
Proof.
  induction m as [|x m IH]; cbn [append all_word]; intros Hm; [tauto|].
  apply andb_prop in Hm as [Hx Hm]. specialize (IH Hm).
  split.
  - intros H. inversion H as [|c s Hc Hs|e s He Hs Heq|h1 h2 h3 h4 s Hh Hs Heq]; subst.
    + now apply IH.
    + discriminate Hx.
    + discriminate Hx.
  - intros H. apply body_plain; [now apply word_is_plain | now apply IH].
Qed.

Lemma decode_words (m r : string) :
  all_word m = true -> body r -> decode (m ++ r) = m ++ decode r.
Proof.
  intros Hm Hr. induction m as [|x m IH]; cbn [append all_word] in *; [reflexivity|].
  apply andb_prop in Hm as [Hx Hm].
  rewrite decode_plain; [now rewrite IH | now apply word_is_plain |].
  now apply body_words.
Qed.

(** The rewritten body is a body again, and it reads as before unless a
    sigil was put in. *)
Lemma replace_body_bounded (n : nat) :
  forall s, String.length s <= n -> body s ->
  forall b,
    body (replace_from b 0 s)
    /\ (decode (replace_from b 0 s) = decode s
        \/ has_sigil (decode (replace_from b 0 s)) = true).
Proof.
  induction n as [|n IH]; intros s Hn Hs b.
  - destruct s; [|cbn in Hn; lia]. split; [constructor | now left].
  - destruct Hs as [|c s Hc Hs|e s He Hs|h1 h2 h3 h4 s Hh Hs].
    + split; [constructor | now left].
    + destruct (match_at b (String c s)) as [m|] eqn:E.
      * destruct (replace_match _ _ _ E) as (Hm & r & Hr & ->).
        assert (Hbr : body r).
        { apply (body_words m r Hm). rewrite <- Hr. now apply body_plain. }
        assert (Hlen : String.length r <= n).
        { pose proof (match_at_length _ _ _ E) as Hml.
          apply (f_equal String.length) in Hr. rewrite length_append in Hr.
          cbn in Hr, Hn. lia. }
        destruct (IH r Hlen Hbr true) as [Hb' _].
        assert (Hb'' : body (m ++ replace_from true 0 r))
          by now apply body_words.
        split; [apply body_plain; [reflexivity | exact Hb'']|].
        right. rewrite decode_plain; [reflexivity | reflexivity | exact Hb''].
      * cbn [replace_from]. rewrite E. cbn in Hn.
        destruct (IH s ltac:(lia) Hs (is_word c)) as [Hb' Hd].
        split; [now apply body_plain|].
        rewrite !decode_plain by assumption.
        destruct Hd as [-> | Hd]; [now left | right].
        cbn [has_sigil]. rewrite Hd. apply orb_true_r.
    + rewrite replace_from_not_word by reflexivity.
      destruct (simple_not_head e He) as (Hg & Hl & Hi).
      cbn [replace_from]. rewrite (match_at_head false e s Hg Hl Hi).
      cbn in Hn. destruct (IH s ltac:(lia) Hs (is_word e)) as [Hb' Hd].
      split; [now apply body_simple|].
      unfold simple in He. destruct (unescape e) as [x|] eqn:Ex; [|discriminate].
      rewrite !(decode_simple e x) by assumption.
      destruct Hd as [-> | Hd]; [now left | right].
      cbn [has_sigil]. rewrite Hd. apply orb_true_r.
    + destruct (hex_ok_inv _ _ _ _ Hh) as (k & p & E1 & E2 & W1 & W2 & W3 & W4).
      rewrite replace_from_not_word by reflexivity.
      cbn [replace_from].
      rewrite (match_at_head false "u" _ eq_refl eq_refl eq_refl).
      change (is_word "u") with true.
      rewrite (match_at_after_word h1 _ W1), W1.
      rewrite (match_at_after_word h2 _ W2), W2.
      rewrite (match_at_after_word h3 _ W3), W3.
      rewrite (match_at_after_word h4 _ W4), W4.
      cbn in Hn. destruct (IH s ltac:(lia) Hs true) as [Hb' Hd].
      split; [now apply body_hex|].
      rewrite !(decode_hex h1 h2 h3 h4 k p) by assumption.
      destruct Hd as [-> | Hd]; [now left | right].
      now apply has_sigil_append.
Qed.

Lemma replace_body (s : string) :
  body s ->
  body (Regex.replace s)
  /\ (decode (Regex.replace s) = decode s
      \/ has_sigil (decode (Regex.replace s)) = true).
Proof.
  intros Hs. exact (replace_body_bounded (String.length s) s (le_n _) Hs false).
Qed.

(** What the three steps make of a string is the string itself, or a
    string with a sigil in it. *)
Lemma sigil_cases (s : string) : sigil s = s \/ has_sigil (sigil s) = true.
Proof.
  unfold sigil.
  destruct (replace_body (escape s) (escape_body s)) as [_ [H|H]].
  - left. now rewrite H, decode_escape.
  - now right.
Qed.

Lemma sigil_body (s : string) : body (Regex.replace (escape s)).
Proof.
  exact (proj1 (replace_body (escape s) (escape_body s))).
Qed.

End RegexInBody.

(** *** Values as texts *)

Section Values.

Import Char JSON Regex Text.

Lemma value_induction (P : value -> Prop) :
  (forall s, P (VStr s)) ->
  (forall items, Forall P items -> P (VArr items)) ->
  (forall props, Forall (fun kv => P (snd kv)) props -> P (VObj props)) ->
  forall v, P v.
Proof.
  intros HS HA HO. fix IH 1. intros [s|items|props].
  - apply HS.
  - apply HA. induction items as [|x items IHl]; constructor; [apply IH | exact IHl].
  - apply HO. induction props as [|[k x] props IHl]; constructor; [apply IH | exact IHl].
Qed.

Lemma stringify_render (v : value) : stringify v = render escape v.
Proof.
  induction v as [s|items IH|props IH] using value_induction; cbn [stringify render].
  - reflexivity.
  - f_equal. f_equal. f_equal.
    induction IH as [|x items Hx _ IHl]; cbn [map]; [reflexivity | now rewrite Hx, IHl].
  - f_equal. f_equal. f_equal.
    induction IH as [|[k x] props Hx _ IHl]; cbn [map fst snd] in *;
      [reflexivity | now rewrite Hx, IHl].
Qed.

(** The rewrite of a text made of pieces joined by commas and closed by
    a character that is not a word character. *)
Lemma replace_concat {A : Type} (g g' : A -> string) (items : list A) :
  Forall (fun x => forall b rest,
              replace_from b 0 (g x ++ rest) = g' x ++ replace_from false 0 rest)
         items ->
  forall (c : ascii) b rest,
    is_word c = false ->
    replace_from b 0 (String.concat "," (map g items) ++ String c rest)
    = String.concat "," (map g' items) ++ String c (replace_from false 0 rest).
Proof.
  intros H c. induction H as [|x items Hx _ IH]; intros b rest Hc.
  - cbn [map String.concat append]. now apply replace_from_not_word.
  - destruct items as [|y items].
    + cbn [map String.concat]. rewrite Hx. now rewrite replace_from_not_word.
    + change (String.concat "," (map g (x :: y :: items)))
        with (g x ++ "," ++ String.concat "," (map g (y :: items))).
      change (String.concat "," (map g' (x :: y :: items)))
        with (g' x ++ "," ++ String.concat "," (map g' (y :: items))).
      rewrite !append_assoc. rewrite Hx. cbn [append].
      rewrite replace_from_not_word by reflexivity.
      now rewrite IH.
Qed.

Lemma replace_literal (body_text rest : string) (b : bool) :
  replace_from b 0 (String dquote (body_text ++ String dquote "") ++ rest)
  = String dquote (replace_from false 0 body_text ++ String dquote "")
    ++ replace_from false 0 rest.
Proof.
  cbn [append]. rewrite replace_from_not_word by reflexivity.
  rewrite !append_assoc. cbn [append].
  now rewrite (replace_from_cut body_text rest dquote eq_refl false 0 (Nat.le_0_l _)).
Qed.

(** The regular expression rewrites the text of a value literal by
    literal. *)
Lemma replace_render (f : string -> string) (v : value) :
  forall b rest,
    replace_from b 0 (render f v ++ rest)
    = render (fun s => replace_from false 0 (f s)) v ++ replace_from false 0 rest.
Proof.
  induction v as [s|items IH|props IH] using value_induction; intros b rest;
    cbn [render].
  - apply replace_literal.
  - cbn [append]. rewrite replace_from_not_word by reflexivity.
    rewrite !append_assoc. cbn [append].
    now rewrite (replace_concat (render f) _ items IH "]" false rest eq_refl).
  - cbn [append]. rewrite replace_from_not_word by reflexivity.
    rewrite !append_assoc. cbn [append].
    rewrite (replace_concat _
               (fun kv => String dquote (replace_from false 0 (f (fst kv))
                                         ++ String dquote "")
                          ++ ":" ++ render (fun s => replace_from false 0 (f s)) (snd kv))
               props); [reflexivity | | reflexivity].
    clear b rest. induction IH as [|[k x] props Hx _ IHl]; constructor; [|exact IHl].
    intros b rest. cbn [fst snd] in *.
    change (replace_from b 0
              ((String dquote (f k ++ String dquote "") ++ ":" ++ render f x) ++ rest)
            = (String dquote (replace_from false 0 (f k) ++ String dquote "")
               ++ ":" ++ render (fun s => replace_from false 0 (f s)) x)
              ++ replace_from false 0 rest).
    assert (Hshape :
              (String dquote (f k ++ String dquote "") ++ ":" ++ render f x) ++ rest
              = String dquote (f k ++ String dquote "")
                ++ String ":" (render f x ++ rest))
      by (now rewrite !append_assoc).
    rewrite Hshape, replace_literal.
    rewrite replace_from_not_word by reflexivity. rewrite Hx.
    now rewrite !append_assoc.
Qed.

End Values.

(** *** Reading a rendered value back *)

Section Reading.

Import Char JSON Regex Text.

Variable g : string -> string.
Hypothesis g_body : forall s, body (g s).

Lemma render_head_open (v : value) (tail : string) :
  head_open (render g v ++ tail) = true.
Proof.
  destruct v; reflexivity.
Qed.

Lemma concat_cons_shape {A : Type} (r : A -> string) (x : A) (l : list A)
      (tail : string) :
  exists tail', String.concat "," (map r (x :: l)) ++ tail = r x ++ tail'.
Proof.
  destruct l as [|y l].
  - exists tail. reflexivity.
  - exists ("," ++ String.concat "," (map r (y :: l)) ++ tail).
    change (String.concat "," (map r (x :: y :: l)))
      with (r x ++ "," ++ String.concat "," (map r (y :: l))).
    now rewrite !append_assoc.
Qed.

Lemma enter_array (fuel : nat) (s : string) :
  head_open s = true ->
  read_value (S fuel) (String "[" s) = read_elements fuel s [].
Proof.
  destruct s as [|c s]; [discriminate|]. intros H.
  cbn [read_value].
  change (Ascii.eqb "[" dquote) with false.
  change (Ascii.eqb "[" "[") with true. cbv iota.
  destruct (Ascii.eqb_spec c "]") as [->|]; [discriminate H | reflexivity].
Qed.

Lemma enter_object (fuel : nat) (s : string) :
  head_open s = true ->
  read_value (S fuel) (String "{" s) = read_members fuel s [].
Proof.
  destruct s as [|c s]; [discriminate|]. intros H.
  cbn [read_value].
  change (Ascii.eqb "{" dquote) with false.
  change (Ascii.eqb "{" "[") with false.
  change (Ascii.eqb "{" "{") with true. cbv iota.
  destruct (Ascii.eqb_spec c "}") as [->|]; [discriminate H | reflexivity].
Qed.

Lemma array_shape (inner rest : string) :
  ("[" ++ inner ++ "]") ++ rest = String "[" (inner ++ String "]" rest).
Proof.
  cbn [append]. now rewrite append_assoc.
Qed.

Lemma object_shape (inner rest : string) :
  ("{" ++ inner ++ "}") ++ rest = String "{" (inner ++ String "}" rest).
Proof.
  cbn [append]. now rewrite append_assoc.
Qed.

Let h (s : string) : string := decode (g s).

Let reads (v : value) : Prop :=
  forall fuel rest,
    size v <= fuel ->
    read_value fuel (render g v ++ rest) = Some (reread h v, rest).

Lemma read_elements_render (items : list value) :
  Forall reads items -> items <> [] ->
  forall fuel acc rest,
    fold_right (fun x n => S (size x + n)) 0 items <= fuel ->
    read_elements fuel
      (String.concat "," (map (render g) items) ++ String "]" rest) acc
    = Some (VArr (acc ++ map (reread h) items)%list, rest).
Proof.
  induction 1 as [|x items Hx _ IH]; intros Hne fuel acc rest Hf; [contradiction|].
  destruct fuel as [|fuel]; [cbn in Hf; lia|]. cbn [fold_right] in Hf.
  cbn [read_elements]. destruct items as [|y items].
  - cbn [map String.concat]. rewrite Hx by lia.
    change (Ascii.eqb "]" ",") with false.
    change (Ascii.eqb "]" "]") with true. reflexivity.
  - change (String.concat "," (map (render g) (x :: y :: items)))
      with (render g x ++ "," ++ String.concat "," (map (render g) (y :: items))).
    rewrite !append_assoc. rewrite Hx by lia. cbn [append].
    change (Ascii.eqb "," ",") with true. cbv iota.
    rewrite IH by (try discriminate; lia).
    cbn [map]. now rewrite <- app_assoc.
Qed.

Lemma read_members_render (props : list (string * value)) :
  Forall (fun kv => reads (snd kv)) props -> props <> [] ->
  forall fuel acc rest,
    fold_right (fun kv n => S (size (snd kv) + n)) 0 props <= fuel ->
    read_members fuel
      (String.concat ","
         (map (fun kv => String dquote (g (fst kv) ++ String dquote "")
                         ++ ":" ++ render g (snd kv)) props)
       ++ String "}" rest) acc
    = Some (VObj (fold_left (fun o kv => set (h (fst kv)) (reread h (snd kv)) o)
                    props acc), rest).
Proof.
  set (member := fun kv : string * value =>
                   String dquote (g (fst kv) ++ String dquote "")
                   ++ ":" ++ render g (snd kv)).
  assert (Hmember : forall k x tail,
             member (k, x) ++ tail
             = String dquote (g k ++ String dquote (String ":" (render g x ++ tail)))).
  { intros k x tail. unfold member. cbn [fst snd append].
    now rewrite !append_assoc. }
  induction 1 as [|[k x] props Hx _ IH]; intros Hne fuel acc rest Hf; [contradiction|].
  destruct fuel as [|fuel]; [cbn in Hf; lia|]. cbn [fold_right fst snd] in Hf, Hx.
  destruct props as [|y props].
  - cbn [map String.concat]. rewrite Hmember. cbn [read_members].
    change (Ascii.eqb dquote dquote) with true. cbv iota.
    rewrite (read_decode (g k) (g_body k)).
    change (Ascii.eqb ":" ":") with true. cbv iota.
    rewrite Hx by lia.
    change (Ascii.eqb "}" ",") with false.
    change (Ascii.eqb "}" "}") with true. reflexivity.
  - change (String.concat "," (map member ((k, x) :: y :: props)))
      with (member (k, x) ++ "," ++ String.concat "," (map member (y :: props))).
    rewrite append_assoc, Hmember. cbn [read_members].
    change (Ascii.eqb dquote dquote) with true. cbv iota.
    rewrite (read_decode (g k) (g_body k)).
    change (Ascii.eqb ":" ":") with true. cbv iota.
    rewrite append_assoc. rewrite Hx by lia. cbn [append].
    change (Ascii.eqb "," ",") with true. cbv iota.
    rewrite IH by (try discriminate; lia).
    reflexivity.
Qed.

(** JSON.parse reads the text of a value as the value with every string
    decoded. *)
Lemma read_render (v : value) : reads v.
Proof.
  induction v as [s|items IH|props IH] using value_induction;
    intros fuel rest Hf; (destruct fuel as [|fuel]; [cbn in Hf; lia|]).
  - cbn [render append read_value].
    change (Ascii.eqb dquote dquote) with true. cbv iota.
    rewrite append_assoc. cbn [append].
    now rewrite (read_decode (g s) (g_body s)).
  - cbn [render]. rewrite array_shape.
    destruct items as [|x items].
    + reflexivity.
    + rewrite enter_array.
      * cbn [size] in Hf. rewrite (read_elements_render _ IH) by (try discriminate; lia).
        reflexivity.
      * destruct (concat_cons_shape (render g) x items (String "]" rest)) as [t ->].
        apply render_head_open.
  - cbn [render]. rewrite object_shape.
    destruct props as [|[k x] props].
    + reflexivity.
    + rewrite enter_object.
      * cbn [size] in Hf. rewrite (read_members_render _ IH) by (try discriminate; lia).
        reflexivity.
      * destruct (concat_cons_shape
                    (fun kv => String dquote (g (fst kv) ++ String dquote "")
                               ++ ":" ++ render g (snd kv))
                    (k, x) props (String "}" rest)) as [t ->].
        reflexivity.
Qed.

Lemma concat_length_bound {A : Type} (r : A -> string) (sz : A -> nat)
      (items : list A) :
  Forall (fun x => sz x + 1 <= String.length (r x)) items ->
  fold_right (fun x n => S (sz x + n)) 0 items
  <= String.length (String.concat "," (map r items)).
Proof.
  induction 1 as [|x items Hx _ IH]; [apply le_n|].
  destruct items as [|y items].
  - cbn [map String.concat fold_right]. lia.
  - change (String.concat "," (map r (x :: y :: items)))
      with (r x ++ "," ++ String.concat "," (map r (y :: items))).
    rewrite !length_append. cbn [fold_right] in *. cbn [String.length]. lia.
Qed.

Lemma size_below_length (v : value) : size v + 1 <= String.length (render g v).
Proof.
  induction v as [s|items IH|props IH] using value_induction; cbn [render size].
  - cbn [String.length]. rewrite length_append. cbn [String.length]. lia.
  - rewrite !length_append. cbn [String.length].
    pose proof (concat_length_bound (render g) size items IH). lia.
  - rewrite !length_append. cbn [String.length].
    assert (H : Forall (fun kv : string * value =>
                          size (snd kv) + 1
                          <= String.length
                               (String dquote (g (fst kv) ++ String dquote "")
                                ++ ":" ++ render g (snd kv))) props).
    { induction IH as [|[k x] props Hx _ IHl]; constructor; [|exact IHl].
      cbn [fst snd] in *. rewrite !length_append. cbn [String.length]. lia. }
    pose proof (concat_length_bound _ (fun kv => size (snd kv)) props H). lia.
Qed.

Lemma parse_render (v : value) : parse (render g v) = Some (reread h v).
Proof.
  unfold parse.
  rewrite <- (append_empty_r (render g v)) at 2.
  rewrite (read_render v).
  - reflexivity.
  - pose proof (size_below_length v). lia.
Qed.

End Reading.

(** *** The filter of a request *)

Section Filter.

Import Char JSON Regex Text Bootcamps.

(** Stringify, rewrite and parse give the value back with every string
    and every property name passed through [sigil]. *)
Lemma parse_replace_stringify (v : value) :
  parse (Regex.replace (stringify v)) = Some (reread sigil v).
Proof.
  rewrite stringify_render. unfold Regex.replace.
  rewrite <- (append_empty_r (render escape v)).
  rewrite replace_render. cbn [replace_from]. rewrite append_empty_r.
  exact (parse_render (fun s => replace_from false 0 (escape s)) sigil_body v).
Qed.

Lemma filter_of_reread (query : object) :
  filter_of query = Some (reread sigil (VObj (remove_fields query))).
Proof.
  unfold filter_of, queryStr. apply parse_replace_stringify.
Qed.

Lemma keys_set (k k' : string) (v : value) (o : object) :
  In k (keys (set k' v o)) -> k = k' \/ In k (keys o).
Proof.
  induction o as [|[k0 v0] o IH]; cbn.
  - intros [<-|[]]. now left.
  - destruct (String.eqb k' k0); cbn.
    + intros [<-|H]; [now left | right; now right].
    + intros [<-|H]; [right; now left|].
      destruct (IH H) as [->|H']; [now left | right; now right].
Qed.

Lemma keys_fold_set (k : string) (l acc : object) :
  In k (keys (fold_left (fun o kv => set (sigil (fst kv)) (reread sigil (snd kv)) o)
                l acc)) ->
  In k (keys acc) \/ exists k0, In k0 (keys l) /\ k = sigil k0.
Proof.
  revert acc. induction l as [|[k0 v0] l IH]; intros acc; cbn [fold_left].
  - now left.
  - intros H. destruct (IH _ H) as [H'|(k1 & Hin & ->)].
    + destruct (keys_set _ _ _ _ H') as [->|H''].
      * right. exists k0. split; [now left | reflexivity].
      * now left.
    + right. exists k1. split; [now right | reflexivity].
Qed.

Lemma get_absent (k : string) (o : object) : ~ In k (keys o) -> get k o = None.
Proof.
  induction o as [|[k0 v0] o IH]; cbn; [reflexivity|].
  intros H. destruct (String.eqb_spec k k0) as [->|Hne].
  - exfalso. apply H. now left.
  - apply IH. intros Hin. apply H. now right.
Qed.

Lemma get_in (k : string) (v : value) (o : object) :
  get k o = Some v -> In (k, v) o.
Proof.
  induction o as [|[k0 v0] o IH]; cbn; [discriminate|].
  destruct (String.eqb_spec k k0) as [->|Hne].
  - intros [= ->]. now left.
  - intros H. right. now apply IH.
Qed.

Lemma keys_delete (k r : string) (o : object) :
  In k (keys (delete r o)) -> k <> r /\ In k (keys o).
Proof.
  induction o as [|[k0 v0] o IH]; cbn; [intros []|].
  destruct (String.eqb_spec r k0) as [->|Hne].
  - intros H. destruct (IH H) as [H1 H2]. split; [exact H1 | now right].
  - cbn. intros [<-|H].
    + split; [congruence | now left].
    + destruct (IH H) as [H1 H2]. split; [exact H1 | now right].
Qed.

Lemma keys_remove_fields (k : string) (query : object) :
  In k (keys (remove_fields query)) -> ~ In k removeFields.
Proof.
  unfold remove_fields, removeFields. cbn [fold_left].
  intros H.
  apply keys_delete in H as [H4 H]. apply keys_delete in H as [H3 H].
  apply keys_delete in H as [H2 H]. apply keys_delete in H as [H1 H].
  cbn [In]. intros [E|[E|[E|[E|[]]]]]; congruence.
Qed.

Lemma reserved_without_sigil (r : string) :
  In r removeFields -> has_sigil r = false.
Proof.
  unfold removeFields. cbn [In].
  intros [<-|[<-|[<-|[<-|[]]]]]; reflexivity.
Qed.

(** C5: the filter is an object; select, sort, page and limit are not
    among its fields, whatever the query holds, those four keys
    included; and it is the filter of every find that the handler sends
    to the model. *)
Theorem reserved_keys_never_filter {Doc : Type} (w : World Doc) (query : object) :
  exists props,
    filter_of query = Some (VObj props)
    /\ Forall (fun r => ~ In r (keys props) /\ get r props = None)
              ["select"; "sort"; "page"; "limit"]
    /\ Forall (fun c => forall q, c = CFind q -> q_filter q = VObj props)
              (calls (getBootcamps w query)).
Proof.
  assert (Hfind : forall props,
             filter_of query = Some (VObj props) ->
             Forall (fun c => forall q, c = CFind q -> q_filter q = VObj props)
                    (calls (getBootcamps w query))).
  { intros props Hf. apply Forall_forall. intros c Hc q ->.
    apply (getBootcamps_find w) in Hc. rewrite Hf in Hc. now injection Hc as <-. }
  revert Hfind. rewrite filter_of_reread. cbn [reread]. intros Hfind.
  eexists. split; [reflexivity|]. split; [|now apply Hfind].
  apply Forall_forall. intros r Hr.
  change (In r removeFields) in Hr.
  assert (Hnot : ~ In r (keys (fold_left
                                 (fun o kv => set (sigil (fst kv))
                                                  (reread sigil (snd kv)) o)
                                 (remove_fields query) []))).
  { intros Hin. destruct (keys_fold_set _ _ _ Hin) as [[]|(k0 & Hk0 & ->)].
    destruct (sigil_cases k0) as [E|E].
    - rewrite E in Hr. exact (keys_remove_fields _ _ Hk0 Hr).
    - rewrite (reserved_without_sigil _ Hr) in E. discriminate E. }
  split; [exact Hnot | now apply get_absent].
Qed.

Lemma split_join_of_string (query : object) (k : string) :
  (forall k' v, In (k', v) query -> exists s, v = VStr s) ->
  truthy (get k query) = true ->
  exists t, split_join (get k query) = Some t.
Proof.
  intros Hq Ht. destruct (get k query) as [v|] eqn:E; [|discriminate Ht].
  destruct (Hq _ _ (get_in _ _ _ E)) as [s ->]. cbn. eauto.
Qed.

Lemma text_of_string (query : object) (k : string) :
  (forall k' v, In (k', v) query -> exists s, v = VStr s) ->
  exists t, Number.text_of (get k query) = Some t.
Proof.
  intros Hq. destruct (get k query) as [v|] eqn:E; [|cbn; eauto].
  destruct (Hq _ _ (get_in _ _ _ E)) as [s ->]. cbn. eauto.
Qed.

(** C6: the filter is always read back, so JSON.parse never throws; on a
    query whose values are all strings nothing else throws either, and
    the handler ends with the response 200 unless the model rejects the
    query. *)
Theorem filter_and_paging_never_throw {Doc : Type} (w : World Doc) (query : object) :
  (exists f, filter_of query = Some (VObj f))
  /\ ((forall k v, In (k, v) query -> exists s, v = VStr s) ->
      (exists b, outcome (getBootcamps w query) = Respond 200 b)
      \/ outcome (getBootcamps w query) = Rejected StorageError).
Proof.
  split.
  - rewrite filter_of_reread. cbn [reread]. eauto.
  - intros Hq. unfold getBootcamps. rewrite filter_of_reread.
    pose proof (split_join_of_string query "select" Hq) as Hsel.
    pose proof (split_join_of_string query "sort" Hq) as Hsort.
    destruct (text_of_string query "page" Hq) as [pageText ->].
    destruct (text_of_string query "limit" Hq) as [limitText ->].
    destruct (truthy (get "select" query));
      [destruct (Hsel eq_refl) as [fields ->]|];
      (destruct (truthy (get "sort" query));
       [destruct (Hsort eq_refl) as [sortBy ->]|]);
      cbn;
      match goal with
      | |- context [exec w ?q] => destruct (exec w q) as [found|]
      end; cbn; eauto.
Qed.

End Filter.

Section FilterOnTheDemoCollection.

Import Bootcamps.

(** A query of strings with an operator word in a value and the four
    reserved keys. *)
Lemma filter_and_paging_never_throw_witness :
  let query := [("name", VStr "sign in"); ("select", VStr "name,phone");
                ("sort", VStr "-name"); ("page", VStr "x2"); ("limit", VStr "")] in
  (exists b, outcome (getBootcamps Demo.world query) = Respond 200 b)
  \/ outcome (getBootcamps Demo.world query) = Rejected StorageError.
Proof.
  intros query.
  apply (proj2 (filter_and_paging_never_throw Demo.world query)).
  intros k v Hin. cbn in Hin.
  decompose [or] Hin; try contradiction;
    match goal with
    | H : (_, _) = (_, _) |- _ => injection H as <- <-; eexists; reflexivity
    end.
Defined.

(** A query with the four reserved keys and one field. *)
Lemma reserved_keys_never_filter_witness :
  let query := [("select", VStr "name"); ("sort", VStr "-name");
                ("page", VStr "2"); ("limit", VStr "5"); ("name", VStr "a")] in
  exists props,
    filter_of query = Some (VObj props)
    /\ props = [("name", VStr "a")]
    /\ get "select" props = None /\ get "sort" props = None
    /\ get "page" props = None /\ get "limit" props = None
    /\ calls (getBootcamps Demo.world query)
       = [CCountDocuments;
          CFind {| q_filter := VObj props;
                   q_populate := "courses";
                   q_select := Some "name";
                   q_sort := "-name";
                   q_skip := 5;
                   q_limit := 5 |}].
Proof.
  intros query.
  destruct (reserved_keys_never_filter Demo.world query) as (props & Hf & Hres & _).
  exists props. split; [exact Hf|].
  assert (Hp : props = [("name", VStr "a")]).
  { assert (Hc : filter_of query = Some (VObj [("name", VStr "a")]))
      by (vm_compute; reflexivity).
    rewrite Hc in Hf. now injection Hf as <-. }
  split; [exact Hp|].
  inversion Hres as [|r1 l1 [_ H1] Hres1]; subst r1 l1.
  inversion Hres1 as [|r2 l2 [_ H2] Hres2]; subst r2 l2.
  inversion Hres2 as [|r3 l3 [_ H3] Hres3]; subst r3 l3.
  inversion Hres3 as [|r4 l4 [_ H4] _]; subst r4 l4.
  repeat (split; [assumption|]).
  rewrite Hp. vm_compute. reflexivity.
Defined.

End FilterOnTheDemoCollection.

(** * More properties *)

(** ** The filter on ordinary texts *)

Section PlainTexts.

Import Char JSON Regex Text Shape Bootcamps.

Lemma escape_char_plain (c : ascii) :
  plain c = true -> escape_char c = String c EmptyString.
Proof.
  destruct c as [[] [] [] [] [] [] [] []]; vm_compute;
    intros H; first [reflexivity | discriminate H].
Qed.

Lemma escape_plain (s : string) : all_plain s = true -> escape s = s.
Proof.
  induction s as [|c s IH]; cbn [all_plain escape]; [reflexivity|].
  intros H. apply andb_prop in H as [Hc Hs].
  now rewrite (escape_char_plain c Hc), (IH Hs).
Qed.

Lemma all_plain_body (s : string) : all_plain s = true -> body s.
Proof.
  induction s as [|c s IH]; cbn [all_plain]; [constructor|].
  intros H. apply andb_prop in H as [Hc Hs]. now apply body_plain; [|apply IH].
Qed.

Lemma decode_all_plain (s : string) : all_plain s = true -> decode s = s.
Proof.
  induction s as [|c s IH]; cbn [all_plain]; [reflexivity|].
  intros H. apply andb_prop in H as [Hc Hs].
  rewrite decode_plain; [now rewrite IH | exact Hc | now apply all_plain_body].
Qed.

Lemma replace_from_all_plain (s : string) :
  all_plain s = true -> forall b k, all_plain (replace_from b k s) = true.
Proof.
  induction s as [|c s IH]; cbn [all_plain]; intros H b k; [reflexivity|].
  apply andb_prop in H as [Hc Hs]. cbn [replace_from].
  destruct k as [|k]; [destruct (match_at b (String c s))|];
    cbn [all_plain]; rewrite Hc, (IH Hs); reflexivity.
Qed.

Lemma sigil_plain (s : string) : all_plain s = true -> sigil s = Regex.replace s.
Proof.
  intros H. unfold sigil. rewrite (escape_plain s H).
  apply decode_all_plain. now apply replace_from_all_plain.
Qed.

Lemma fold_left_ext_in {A B : Type} (F G : A -> B -> A) (l : list B) :
  (forall a x, In x l -> F a x = G a x) ->
  forall a, fold_left F l a = fold_left G l a.
Proof.
  induction l as [|x l IH]; intros H a; cbn [fold_left]; [reflexivity|].
  rewrite (H a x (or_introl eq_refl)). apply IH.
  intros a' y Hy. apply H. now right.
Qed.

(** Two functions that agree on the strings of a value give the same
    value. *)
Lemma reread_ext (p : string -> bool) (f g : string -> string) (v : value) :
  (forall s, p s = true -> f s = g s) ->
  strings_all p v = true -> reread f v = reread g v.
Proof.
  intros Hfg.
  induction v as [s|items IH|props IH] using value_induction;
    cbn [strings_all reread]; intros Hp.
  - now rewrite (Hfg s Hp).
  - f_equal. induction IH as [|x items Hx _ IHl]; cbn [map forallb] in *;
      [reflexivity|].
    apply andb_prop in Hp as [Hpx Hpl]. now rewrite (Hx Hpx), (IHl Hpl).
  - f_equal. apply fold_left_ext_in. intros a [k x] Hin. cbn [fst snd].
    rewrite forallb_forall in Hp. specialize (Hp _ Hin). cbn [fst snd] in Hp.
    apply andb_prop in Hp as [Hk Hx].
    rewrite Forall_forall in IH. specialize (IH _ Hin). cbn [snd] in IH.
    now rewrite (Hfg k Hk), (IH Hx).
Qed.

Lemma delete_filter (k : string) (o : object) :
  delete k o = filter (fun kv => negb (String.eqb k (fst kv))) o.
Proof.
  induction o as [|[k' v] o IH]; cbn [delete filter fst]; [reflexivity|].
  destruct (String.eqb k k'); cbn [negb]; now rewrite IH.
Qed.

Lemma filter_filter {A : Type} (f g : A -> bool) (l : list A) :
  filter f (filter g l) = filter (fun x => (g x && f x)%bool) l.
Proof.
  induction l as [|x l IH]; cbn [filter]; [reflexivity|].
  destruct (g x); cbn [filter andb]; [destruct (f x)|]; now rewrite IH.
Qed.

Lemma remove_fields_filter (query : object) :
  remove_fields query = filter (fun kv => negb (reserved (fst kv))) query.
Proof.
  unfold remove_fields, removeFields. cbn [fold_left].
  rewrite !delete_filter, !filter_filter.
  apply filter_ext. intros [k v]. unfold reserved, removeFields.
  cbn [fst existsb].
  rewrite (String.eqb_sym k "select"), (String.eqb_sym k "sort"),
    (String.eqb_sym k "page"), (String.eqb_sym k "limit").
  destruct (String.eqb "select" k), (String.eqb "sort" k),
    (String.eqb "page" k), (String.eqb "limit" k); reflexivity.
Qed.

Lemma get_filter_names (g : string -> bool) (k : string) (o : object) :
  get k (filter (fun kv => g (fst kv)) o) = if g k then get k o else None.
Proof.
  induction o as [|[k' v] o IH]; cbn [filter get fst].
  - now destruct (g k).
  - destruct (g k') eqn:Eg'; cbn [get].
    + destruct (String.eqb_spec k k') as [->|Hne]; [now rewrite Eg' | exact IH].
    + destruct (String.eqb_spec k k') as [->|Hne]; [now rewrite IH, Eg' | exact IH].
Qed.

(** X1: the deletes of lines 17 to 20 keep, in their order, exactly the
    properties whose name is not select, sort, page or limit; after them
    none of these four names is a property, and a lookup of any other
    name gives what the query has. *)
Theorem remove_fields_keeps_the_rest (query : object) :
  remove_fields query
  = filter (fun kv =>
              negb (existsb (String.eqb (fst kv))
                      ["select"; "sort"; "page"; "limit"])) query
  /\ (get "select" (remove_fields query) = None
      /\ get "sort" (remove_fields query) = None
      /\ get "page" (remove_fields query) = None
      /\ get "limit" (remove_fields query) = None)
  /\ forall k, k <> "select" -> k <> "sort" -> k <> "page" -> k <> "limit" ->
               get k (remove_fields query) = get k query.
Proof.
  assert (Hget : forall k, get k (remove_fields query)
                           = if reserved k then None else get k query).
  { intros k. rewrite remove_fields_filter.
    rewrite (get_filter_names (fun n => negb (reserved n)) k query).
    now destruct (reserved k). }
  split; [apply remove_fields_filter|].
  split; [repeat split; rewrite Hget; reflexivity|].
  intros k H1 H2 H3 H4. rewrite Hget.
  unfold reserved, removeFields. cbn [existsb].
  apply String.eqb_neq in H1, H2, H3, H4. now rewrite H1, H2, H3, H4.
Qed.

Lemma forallb_filter {A : Type} (p g : A -> bool) (l : list A) :
  forallb p l = true -> forallb p (filter g l) = true.
Proof.
  induction l as [|x l IH]; cbn [forallb filter]; [reflexivity|].
  intros H. apply andb_prop in H as [Hx Hl].
  destruct (g x); cbn [forallb]; [now rewrite Hx, IH | now apply IH].
Qed.

Lemma strings_all_remove_fields (p : string -> bool) (query : object) :
  strings_all p (VObj query) = true ->
  strings_all p (VObj (remove_fields query)) = true.
Proof.
  rewrite remove_fields_filter. cbn [strings_all]. apply forallb_filter.
Qed.

End PlainTexts.

Section FilterShapes.

Import Char JSON Regex Text Shape Bootcamps.

Lemma set_fresh (k : string) (v : value) (o : object) :
  ~ In k (keys o) -> set k v o = (o ++ [(k, v)])%list.
Proof.
  induction o as [|[k' v'] o IH]; cbn; [reflexivity|].
  intros H. destruct (String.eqb_spec k k') as [->|Hne].
  - exfalso. apply H. now left.
  - rewrite IH; [reflexivity|]. intros Hin. apply H. now right.
Qed.

Lemma fold_set_fresh (h : value -> value) (props acc : object) :
  NoDup (keys acc ++ map fst props) ->
  (forall kv, In kv props -> h (snd kv) = snd kv) ->
  fold_left (fun o kv => set (fst kv) (h (snd kv)) o) props acc
  = (acc ++ props)%list.
Proof.
  revert acc. induction props as [|[k x] props IH]; intros acc Hnd Hh.
  - cbn. now rewrite app_nil_r.
  - cbn [fold_left fst snd]. cbn [map fst] in Hnd.
    pose proof (Hh (k, x) (or_introl eq_refl)) as Hx. cbn [snd] in Hx.
    rewrite Hx. rewrite set_fresh.
    + rewrite IH.
      * now rewrite <- app_assoc.
      * unfold keys in *. rewrite map_app. cbn [map fst].
        rewrite <- app_assoc. exact Hnd.
      * intros kv Hin. apply Hh. now right.
    + apply NoDup_remove_2 in Hnd. intros Hin. apply Hnd.
      apply in_or_app. now left.
Qed.

Lemma well_named_props (props : object) :
  fold_right (fun kv P => well_named (snd kv) /\ P) True props ->
  forall kv, In kv props -> well_named (snd kv).
Proof.
  induction props as [|kv0 props IH]; cbn; [intros _ kv []|].
  intros [H0 H] kv [<-|Hin]; [exact H0 | now apply IH].
Qed.

(** Reading back with the identity gives the value itself when no
    object has a name twice. *)
Lemma reread_id (v : value) : well_named v -> reread (fun s => s) v = v.
Proof.
  induction v as [s|items IH|props IH] using value_induction;
    cbn [well_named reread]; intros Hw.
  - reflexivity.
  - f_equal. induction IH as [|x items Hx _ IHl]; cbn [map fold_right] in *;
      [reflexivity|].
    destruct Hw as [Hwx Hwl]. now rewrite (Hx Hwx), (IHl Hwl).
  - destruct Hw as [Hnd Hw]. f_equal.
    rewrite (fold_set_fresh (reread (fun s => s)) props []); [reflexivity | exact Hnd |].
    intros kv Hin. rewrite Forall_forall in IH. apply (IH kv Hin).
    now apply (well_named_props props Hw).
Qed.

Lemma NoDup_names_filter (g : string * value -> bool) (o : object) :
  NoDup (map fst o) -> NoDup (map fst (filter g o)).
Proof.
  induction o as [|[k v] o IH]; cbn [map filter fst]; [constructor|].
  intros H. inversion H as [|k0 l Hnin Hnd]; subst.
  destruct (g (k, v)); cbn [map fst]; [|now apply IH].
  constructor; [|now apply IH].
  intros Hin. apply Hnin. apply in_map_iff in Hin as ([k' v'] & <- & Hin').
  apply filter_In in Hin' as [Hin' _]. now apply (in_map fst) in Hin'.
Qed.

Lemma well_named_remove_fields (query : object) :
  well_named (VObj query) -> well_named (VObj (remove_fields query)).
Proof.
  rewrite remove_fields_filter. cbn [well_named]. intros [Hnd Hw]. split.
  - now apply NoDup_names_filter.
  - induction query as [|[k v] query IH]; cbn [filter fold_right] in *; [exact I|].
    inversion Hnd as [|k0 l Hnin Hnd']; subst. destruct Hw as [Hv Hw].
    destruct (negb (reserved (fst (k, v)))); cbn [fold_right];
      [split; [exact Hv|]|]; now apply IH.
Qed.

Lemma untouched_eq (s : string) : untouched s = true -> Regex.replace s = s.
Proof.
  unfold untouched. apply String.eqb_eq.
Qed.

(** X2: on a query whose texts hold no quote, backslash or control
    character, the filter is the stripped query with the regular
    expression applied to every string and every property name, at any
    depth: reading back undoes the stringify around the rewrite. *)
Theorem plain_query_filter (query : object) :
  strings_all all_plain (VObj query) = true ->
  filter_of query = Some (reread Regex.replace (VObj (remove_fields query))).
Proof.
  intros H. rewrite filter_of_reread. f_equal.
  apply (reread_ext all_plain); [exact sigil_plain|].
  now apply strings_all_remove_fields.
Qed.

(** X3: a query of such texts that the regular expression leaves alone,
    with no name twice in an object, reaches the model as it is but for
    the four reserved keys: every value is an exact-match filter. *)
Theorem untouched_query_passes_through (query : object) :
  strings_all (fun s => (all_plain s && untouched s)%bool) (VObj query) = true ->
  well_named (VObj query) ->
  filter_of query = Some (VObj (remove_fields query)).
Proof.
  intros H Hw. rewrite filter_of_reread. f_equal.
  transitivity (reread (fun s => s) (VObj (remove_fields query))).
  - apply (reread_ext (fun s => (all_plain s && untouched s)%bool)).
    + intros s Hs. apply andb_prop in Hs as [Hp Hu].
      now rewrite (sigil_plain s Hp), (untouched_eq s Hu).
    + now apply strings_all_remove_fields.
  - now apply reread_id, well_named_remove_fields.
Qed.

Lemma strings_all_true (v : value) : strings_all (fun _ => true) v = true.
Proof.
  induction v as [s|items IH|props IH] using value_induction; cbn [strings_all].
  - reflexivity.
  - induction IH as [|x items Hx _ IHl]; cbn [forallb]; [reflexivity|].
    now rewrite Hx, IHl.
  - induction IH as [|[k x] props Hx _ IHl]; cbn [forallb fst snd] in *;
      [reflexivity|].
    now rewrite Hx, IHl.
Qed.

(** X4: JSON.parse gives back what JSON.stringify was given, for every
    query value in which no object has a name twice. *)
Theorem parse_stringify (v : value) :
  well_named v -> JSON.parse (JSON.stringify v) = Some v.
Proof.
  intros Hw. rewrite stringify_render.
  rewrite (parse_render escape escape_body v). f_equal.
  transitivity (reread (fun s => s) v); [|now apply reread_id].
  apply (reread_ext (fun _ => true)); [|apply strings_all_true].
  intros s _. apply decode_escape.
Qed.

End FilterShapes.

(** ** What the rewrite does to a text *)

Section Sigils.

Import Char JSON Regex Text Shape Bootcamps.

Lemma erase_append (c : ascii) (a b : string) :
  erase c (a ++ b) = erase c a ++ erase c b.
Proof.
  induction a as [|x a IH]; cbn [append erase]; [reflexivity|].
  destruct (Ascii.eqb x c); cbn [append]; now rewrite IH.
Qed.

(** The rewrite of a body reads as before once the sigils are taken
    out. *)
Lemma replace_erase_bounded (n : nat) :
  forall s, String.length s <= n -> body s ->
  forall b, erase "$" (decode (replace_from b 0 s)) = erase "$" (decode s).
Proof.
  induction n as [|n IH]; intros s Hn Hs b.
  - destruct s; [reflexivity | cbn in Hn; lia].
  - destruct Hs as [|c s Hc Hs|e s He Hs|h1 h2 h3 h4 s Hh Hs].
    + reflexivity.
    + destruct (match_at b (String c s)) as [m|] eqn:E.
      * destruct (replace_match _ _ _ E) as (Hm & r & Hr & ->).
        assert (Hbr : body r).
        { apply (body_words m r Hm). rewrite <- Hr. now apply body_plain. }
        assert (Hlen : String.length r <= n).
        { pose proof (match_at_length _ _ _ E) as Hml.
          pose proof (f_equal String.length Hr) as Hl.
          rewrite length_append in Hl. cbn in Hl, Hn. lia. }
        pose proof (proj1 (replace_body_bounded n r Hlen Hbr true)) as Hb'.
        rewrite decode_plain;
          [|reflexivity | now apply (body_words m _ Hm)].
        rewrite (decode_words m _ Hm Hb'). rewrite Hr.
        rewrite (decode_words m r Hm Hbr).
        cbn [erase]. change (Ascii.eqb "$" "$") with true. cbv iota.
        rewrite !erase_append. now rewrite (IH r Hlen Hbr true).
      * cbn [replace_from]. rewrite E. cbn in Hn.
        assert (Hlen : String.length s <= n) by lia.
        pose proof (proj1 (replace_body_bounded n s Hlen Hs (is_word c))) as Hb'.
        rewrite !decode_plain by assumption. cbn [erase].
        now rewrite (IH s Hlen Hs (is_word c)).
    + rewrite replace_from_not_word by reflexivity.
      destruct (simple_not_head e He) as (Hg & Hl & Hi).
      cbn [replace_from]. rewrite (match_at_head false e s Hg Hl Hi).
      cbn in Hn. assert (Hlen : String.length s <= n) by lia.
      pose proof (proj1 (replace_body_bounded n s Hlen Hs (is_word e))) as Hb'.
      unfold simple in He. destruct (unescape e) as [x|] eqn:Ex; [|discriminate].
      rewrite !(decode_simple e x) by assumption. cbn [erase].
      now rewrite (IH s Hlen Hs (is_word e)).
    + destruct (hex_ok_inv _ _ _ _ Hh) as (k & p & E1 & E2 & W1 & W2 & W3 & W4).
      rewrite replace_from_not_word by reflexivity.
      cbn [replace_from].
      rewrite (match_at_head false "u" _ eq_refl eq_refl eq_refl).
      change (is_word "u") with true.
      rewrite (match_at_after_word h1 _ W1), W1.
      rewrite (match_at_after_word h2 _ W2), W2.
      rewrite (match_at_after_word h3 _ W3), W3.
      rewrite (match_at_after_word h4 _ W4), W4.
      cbn in Hn. assert (Hlen : String.length s <= n) by lia.
      pose proof (proj1 (replace_body_bounded n s Hlen Hs true)) as Hb'.
      rewrite !(decode_hex h1 h2 h3 h4 k p) by assumption.
      rewrite !erase_append. now rewrite (IH s Hlen Hs true).
Qed.

(** X5: whatever the query holds, the filter is the stripped query with
    every string and name changed by nothing but inserted sigils: with
    the sigils taken out, each of them is the text of the query. *)
Theorem filter_only_inserts_sigils (query : object) :
  filter_of query = Some (reread sigil (VObj (remove_fields query)))
  /\ forall s, erase "$" (sigil s) = erase "$" s.
Proof.
  split; [apply filter_of_reread|].
  intros s. unfold sigil, Regex.replace.
  rewrite (replace_erase_bounded (String.length (escape s)) (escape s)
             (le_n _) (escape_body s) false).
  now rewrite decode_escape.
Qed.





End Sigils.

(** ** parseInt on printed integers *)

Section DecimalTexts.

Import Char Number Shape Bootcamps.

Lemma digits_stop (acc : option Z) (tail : string) :
  head_is_digit tail = false -> digits acc tail = acc.
Proof.
  destruct tail as [|c tail]; cbn; [reflexivity|]. now intros ->.
Qed.

Lemma digits_acc (d : uint) (acc : positive) (tail : string) :
  head_is_digit tail = false ->
  digits (Some (Zpos acc)) (NilEmpty.string_of_uint d ++ tail)
  = Some (Zpos (Pos.of_uint_acc d acc)).
Proof.
  intros Ht. revert acc.
  induction d as [|d IH|d IH|d IH|d IH|d IH|d IH|d IH|d IH|d IH|d IH];
    intros acc;
    [ cbn [NilEmpty.string_of_uint append Pos.of_uint_acc]; now apply digits_stop
    | cbn [NilEmpty.string_of_uint append Pos.of_uint_acc digits];
      match goal with
      | |- context [is_digit ?c] => change (is_digit c) with true
      end; cbv iota;
      rewrite <- IH; f_equal; f_equal;
      match goal with
      | |- context [Z.of_N ?n] =>
          let v := eval vm_compute in (Z.of_N n) in change (Z.of_N n) with v
      end; lia .. ].
Qed.

Lemma digits_zero (d : uint) (tail : string) :
  head_is_digit tail = false ->
  digits (Some 0%Z) (NilEmpty.string_of_uint d ++ tail)
  = Some (Z.of_N (Pos.of_uint d)).
Proof.
  intros Ht.
  induction d as [|d IH|d IH|d IH|d IH|d IH|d IH|d IH|d IH|d IH|d IH];
    [ cbn [NilEmpty.string_of_uint append Pos.of_uint]; now apply digits_stop
    | cbn [NilEmpty.string_of_uint append digits];
      change (is_digit "0") with true; cbv iota; exact IH
    | cbn [NilEmpty.string_of_uint append Pos.of_uint digits];
      match goal with
      | |- context [is_digit ?c] => change (is_digit c) with true
      end; cbv iota;
      match goal with
      | |- digits (Some ?z) _ = Some (Z.of_N (N.pos (Pos.of_uint_acc _ ?p))) =>
          change z with (Zpos p)
      end;
      now apply digits_acc .. ].
Qed.

Lemma digits_uint (d : uint) (tail : string) :
  d <> Nil -> head_is_digit tail = false ->
  digits None (NilEmpty.string_of_uint d ++ tail) = Some (Z.of_N (Pos.of_uint d)).
Proof.
  intros Hd Ht. rewrite <- (digits_zero d tail Ht).
  destruct d; [contradiction | reflexivity ..].
Qed.

Lemma trim_start_ascii (c : ascii) (s : string) :
  N.ltb (code c) 128 = true -> blank1 c = false ->
  trim_start (String c s) = String c s.
Proof.
  intros Hc Hb. apply N.ltb_lt in Hc. cbn [trim_start]. rewrite Hb.
  assert (H2 : forall d, blank2 c d = false).
  { intros d. unfold blank2.
    destruct (N.eqb_spec (code c) 194); [lia | reflexivity]. }
  assert (H3 : forall d e, blank3 c d e = false).
  { intros d e. unfold blank3.
    destruct (N.eqb_spec (code c) 225); [lia|].
    destruct (N.eqb_spec (code c) 226); [lia|].
    destruct (N.eqb_spec (code c) 227); [lia|].
    destruct (N.eqb_spec (code c) 239); [lia | reflexivity]. }
  destruct s as [|d [|e s]]; [reflexivity | now rewrite H2 | now rewrite H2, H3].
Qed.

Lemma uint_text_head (d : uint) :
  d <> Nil ->
  exists c s,
    NilEmpty.string_of_uint d = String c s
    /\ is_digit c = true.
Proof.
  intros Hd. destruct d; [contradiction | eexists; eexists; split; reflexivity ..].
Qed.

Lemma digit_is_ascii (c : ascii) :
  is_digit c = true ->
  N.ltb (code c) 128 = true /\ blank1 c = false
  /\ Ascii.eqb c "-" = false /\ Ascii.eqb c "+" = false.
Proof.
  destruct c as [[] [] [] [] [] [] [] []]; vm_compute;
    intros H; first [discriminate H | repeat split].
Qed.

Lemma parseInt_unsigned (c : ascii) (s : string) :
  is_digit c = true ->
  parseInt_string (String c s)
  = match digits None (String c s) with
    | Some n => Some (1 * n)%Z
    | None => None
    end.
Proof.
  intros Hc. destruct (digit_is_ascii c Hc) as (H1 & H2 & H3 & H4).
  unfold parseInt_string. rewrite (trim_start_ascii c s H1 H2).
  destruct (Ascii.eqb_spec c "-") as [->|_]; [discriminate H3|].
  destruct (Ascii.eqb_spec c "+") as [->|_]; [discriminate H4|].
  destruct c as [[] [] [] [] [] [] [] []]; try discriminate Hc; reflexivity.
Qed.

Lemma parseInt_positive (p : positive) (tail : string) :
  head_is_digit tail = false ->
  parseInt_string (NilEmpty.string_of_uint (Pos.to_uint p) ++ tail) = Some (Zpos p).
Proof.
  intros Ht.
  pose proof (DecimalPos.Unsigned.to_uint_nonnil p) as Hnn.
  pose proof (digits_uint (Pos.to_uint p) tail Hnn Ht) as Hd.
  rewrite DecimalPos.Unsigned.of_to in Hd.
  destruct (uint_text_head (Pos.to_uint p) Hnn) as (c & s & E & Hc).
  rewrite E in *. cbn [append] in *.
  rewrite (parseInt_unsigned c _ Hc), Hd. reflexivity.
Qed.

Lemma parseInt_negative (p : positive) (tail : string) :
  head_is_digit tail = false ->
  parseInt_string (String "-" (NilEmpty.string_of_uint (Pos.to_uint p) ++ tail))
  = Some (Zneg p).
Proof.
  intros Ht.
  pose proof (DecimalPos.Unsigned.to_uint_nonnil p) as Hnn.
  pose proof (digits_uint (Pos.to_uint p) tail Hnn Ht) as Hd.
  rewrite DecimalPos.Unsigned.of_to in Hd.
  unfold parseInt_string.
  rewrite (trim_start_ascii "-" _ eq_refl eq_refl).
  cbv iota. rewrite Hd. reflexivity.
Qed.

Lemma parseInt_decimal (z : Z) (tail : string) :
  head_is_digit tail = false ->
  parseInt_string (decimal z ++ tail) = Some z.
Proof.
  intros Ht.
  unfold decimal. destruct z as [|p|p]; cbn [Z.to_int NilZero.string_of_int].
  - cbn [NilZero.string_of_uint append]. unfold parseInt_string.
    cbn [trim_start]. change (blank1 "0") with false. cbv iota.
    destruct tail as [|d [|e tail]]; cbn in Ht |- *;
      try reflexivity; rewrite ?Ht; reflexivity.
  - assert (E : NilZero.string_of_uint (Pos.to_uint p)
                = NilEmpty.string_of_uint (Pos.to_uint p)).
    { pose proof (DecimalPos.Unsigned.to_uint_nonnil p).
      destruct (Pos.to_uint p); [contradiction | reflexivity ..]. }
    rewrite E. now apply parseInt_positive.
  - assert (E : NilZero.string_of_uint (Pos.to_uint p)
                = NilEmpty.string_of_uint (Pos.to_uint p)).
    { pose proof (DecimalPos.Unsigned.to_uint_nonnil p).
      destruct (Pos.to_uint p); [contradiction | reflexivity ..]. }
    rewrite E. cbn [append]. now apply parseInt_negative.
Qed.

Lemma page_of_decimal (z : Z) (tail : string) (query : object) :
  head_is_digit tail = false -> z <> 0%Z ->
  get "page" query = Some (VStr (decimal z ++ tail)) -> page_of query = z.
Proof.
  intros Ht Hz Hg. unfold page_of, parseInt. rewrite Hg. cbn [text_of ToString].
  rewrite (parseInt_decimal z tail Ht). destruct z; try reflexivity; contradiction.
Qed.

Lemma limit_of_decimal (z : Z) (tail : string) (query : object) :
  head_is_digit tail = false -> z <> 0%Z ->
  get "limit" query = Some (VStr (decimal z ++ tail)) -> limit_of query = z.
Proof.
  intros Ht Hz Hg. unfold limit_of, parseInt. rewrite Hg. cbn [text_of ToString].
  rewrite (parseInt_decimal z tail Ht). destruct z; try reflexivity; contradiction.
Qed.

(** X8: parseInt reads back every integer printed in decimal (below
    2^53 in magnitude, where numbers are exact), with its sign, and drops
    what follows the digits; so a page or a limit given as a decimal
    number other than zero is taken as that number, also with text
    behind it. *)
Theorem parseInt_reads_decimal (z : Z) (tail : string) (query : object) :
  (Z.abs z < 2 ^ 53)%Z ->
  head_is_digit tail = false ->
  parseInt_string (decimal z ++ tail) = Some z
  /\ (z <> 0%Z ->
      (get "page" query = Some (VStr (decimal z ++ tail)) -> page_of query = z)
      /\ (get "limit" query = Some (VStr (decimal z ++ tail)) -> limit_of query = z)).
Proof.
  intros _ Ht. split; [now apply parseInt_decimal|].
  intros Hz. split; [now apply page_of_decimal | now apply limit_of_decimal].
Qed.

(** X21: following pagination.next: for a page of at least 1, the
    request that sends the page and the limit of the descriptor in
    decimal is read as the page after this one with the same limit, and
    its window starts where the window of this request ends. *)
Theorem following_next (query query' : object) (total : Z) (p : Page) :
  (0 < page_of query)%Z ->
  (page_of query + 1 < 2 ^ 53)%Z -> (Z.abs (limit_of query) < 2 ^ 53)%Z ->
  next (paginate (page_of query) (limit_of query) total) = Some p ->
  get "page" query' = Some (VStr (decimal (page p))) ->
  get "limit" query' = Some (VStr (decimal (limit p))) ->
  page_of query' = (page_of query + 1)%Z
  /\ limit_of query' = limit_of query
  /\ startIndex (page_of query') (limit_of query')
     = endIndex (page_of query) (limit_of query).
Proof.
  intros Hpos _ _ Hn Hp Hl.
  unfold paginate in Hn. cbn [next] in Hn.
  destruct (endIndex (page_of query) (limit_of query) <? total)%Z;
    [|discriminate Hn].
  injection Hn as <-. cbn [page limit] in Hp, Hl.
  assert (Hlim : limit_of query <> 0%Z).
  { unfold limit_of. apply or_default_nonzero. discriminate. }
  rewrite <- (append_empty_r (decimal (page_of query + 1))) in Hp.
  rewrite <- (append_empty_r (decimal (limit_of query))) in Hl.
  assert (Hnz : (page_of query + 1)%Z <> 0%Z) by lia.
  rewrite (page_of_decimal (page_of query + 1) EmptyString query' eq_refl Hnz Hp).
  rewrite (limit_of_decimal (limit_of query) EmptyString query' eq_refl Hlim Hl).
  unfold startIndex, endIndex. repeat split. lia.
Qed.

Lemma parseInt_no_integer (c : ascii) (s : string) :
  N.ltb (code c) 128 = true -> blank1 c = false -> is_digit c = false ->
  Ascii.eqb c "-" = false -> Ascii.eqb c "+" = false ->
  parseInt_string (String c s) = None.
Proof.
  intros H1 H2 H3 H4 H5. unfold parseInt_string.
  rewrite (trim_start_ascii c s H1 H2). clear H1 H2. revert H3 H4 H5.
  destruct c as [[] [] [] [] [] [] [] []]; vm_compute;
    intros H3 H4 H5; first [reflexivity | discriminate].
Qed.

Lemma page_of_text (query : object) (s : string) :
  get "page" query = Some (VStr s) ->
  page_of query = or_default (parseInt_string s) 1.
Proof.
  intros Hg. unfold page_of, parseInt. now rewrite Hg.
Qed.

Lemma limit_of_text (query : object) (s : string) :
  get "limit" query = Some (VStr s) ->
  limit_of query = or_default (parseInt_string s) 25.
Proof.
  intros Hg. unfold limit_of, parseInt. now rewrite Hg.
Qed.

(** C3, as the code has it: page and limit are never zero.  An absent
    value, a string in which parseInt finds no integer (the empty
    string, a string that starts with a character that is no blank, no
    sign and no digit) and a string that reads as zero give page = 1 and
    limit = 25.  Any other integer that parseInt reads in the string is
    the page, or the limit, as it is, positive or negative, as long as it
    is a safe integer (below 2^53 in magnitude, where the numbers of the
    code are exact); and parseInt reads every safe integer that is
    written in decimal, with its sign and whatever follows the digits. *)
Theorem page_and_limit_never_zero (query : object) :
  (page_of query <> 0%Z /\ limit_of query <> 0%Z)
  /\ ((get "page" query = None -> page_of query = 1%Z)
      /\ (get "limit" query = None -> limit_of query = 25%Z))
  /\ (forall s,
        parseInt_string s = None \/ parseInt_string s = Some 0%Z ->
        (get "page" query = Some (VStr s) -> page_of query = 1%Z)
        /\ (get "limit" query = Some (VStr s) -> limit_of query = 25%Z))
  /\ (forall s n,
        parseInt_string s = Some n -> n <> 0%Z -> safe n ->
        (get "page" query = Some (VStr s) -> page_of query = n)
        /\ (get "limit" query = Some (VStr s) -> limit_of query = n))
  /\ (forall z tail,
        safe z -> head_is_digit tail = false ->
        parseInt_string (decimal z ++ tail) = Some z)
  /\ (forall c s,
        N.ltb (code c) 128 = true -> blank1 c = false -> is_digit c = false ->
        Ascii.eqb c "-" = false -> Ascii.eqb c "+" = false ->
        parseInt_string (String c s) = None)
  /\ parseInt_string EmptyString = None.
Proof.
  split; [split; [unfold page_of | unfold limit_of];
          apply or_default_nonzero; discriminate|].
  split; [split; intros Hg; [unfold page_of | unfold limit_of];
          rewrite Hg; reflexivity|].
  split.
  { intros s Hs. split; intros Hg;
      [rewrite (page_of_text query s Hg) | rewrite (limit_of_text query s Hg)];
      destruct Hs as [-> | ->]; reflexivity. }
  split.
  { intros s n Hs Hn _. split; intros Hg;
      [rewrite (page_of_text query s Hg) | rewrite (limit_of_text query s Hg)];
      rewrite Hs; destruct n; try reflexivity; contradiction. }
  split; [intros z tail _ Ht; now apply parseInt_decimal|].
  split; [exact parseInt_no_integer | reflexivity].
Qed.

(** A page of 3, a limit of -5 with text behind it, an absent page and
    a limit that is no number. *)
Lemma page_and_limit_never_zero_witness :
  page_of [("page", VStr "3"); ("limit", VStr "-5x")] = 3%Z
  /\ limit_of [("page", VStr "3"); ("limit", VStr "-5x")] = (-5)%Z
  /\ page_of [("limit", VStr "abc")] = 1%Z
  /\ limit_of [("limit", VStr "abc")] = 25%Z.
Proof.
  destruct (page_and_limit_never_zero [("page", VStr "3"); ("limit", VStr "-5x")])
    as (_ & _ & _ & Hkept & Hdec & _).
  destruct (page_and_limit_never_zero [("limit", VStr "abc")])
    as (_ & (Habsent & _) & Hnan & _ & _ & Hno & _).
  split; [|split; [|split]].
  - exact (proj1 (Hkept "3" 3%Z (Hdec 3%Z EmptyString eq_refl eq_refl)
                    ltac:(discriminate) eq_refl) eq_refl).
  - exact (proj2 (Hkept "-5x" (-5)%Z (Hdec (-5)%Z "x" eq_refl eq_refl)
                    ltac:(discriminate) eq_refl) eq_refl).
  - exact (Habsent eq_refl).
  - exact (proj2 (Hnan "abc"
                    (or_introl (Hno "a"%char "bc" eq_refl eq_refl eq_refl
                                  eq_refl eq_refl))) eq_refl).
Defined.

End DecimalTexts.

(** ** select and sort *)

Section SelectAndSort.

Import Char Shape Bootcamps.

Lemma split_not_nil (sep : ascii) (s : string) : split sep s <> [].
Proof.
  destruct s as [|c s]; cbn; [discriminate|].
  destruct (Ascii.eqb c sep); [discriminate|].
  destruct (split sep s); discriminate.
Qed.

Lemma concat_cons_char (c : ascii) (h : string) (t : list string) :
  String.concat " " (String c h :: t) = String c (String.concat " " (h :: t)).
Proof.
  destruct t; reflexivity.
Qed.

Lemma split_join_text (s : string) :
  String.concat " " (split "," s) = subst_char "," " " s.
Proof.
  induction s as [|c s IH]; cbn [split subst_char]; [reflexivity|].
  destruct (Ascii.eqb_spec c ",") as [->|Hne].
  - destruct (split "," s) as [|h t] eqn:E; [now apply split_not_nil in E|].
    change (String.concat " " (EmptyString :: h :: t))
      with (String " " (String.concat " " (h :: t))).
    now rewrite IH.
  - destruct (split "," s) as [|h t] eqn:E; [now apply split_not_nil in E|].
    rewrite concat_cons_char. now rewrite IH.
Qed.

Lemma subst_char_length (a b : ascii) (s : string) :
  String.length (subst_char a b s) = String.length s.
Proof.
  induction s as [|c s IH]; cbn; [reflexivity | now rewrite IH].
Qed.

Lemma subst_char_gone (a b : ascii) (s : string) :
  a <> b -> erase a (subst_char a b s) = subst_char a b s.
Proof.
  intros Hab. induction s as [|c s IH]; cbn [subst_char erase]; [reflexivity|].
  destruct (Ascii.eqb_spec c a) as [->|Hne].
  - destruct (Ascii.eqb_spec b a) as [->|_]; [contradiction | now rewrite IH].
  - destruct (Ascii.eqb_spec c a) as [->|_]; [contradiction | now rewrite IH].
Qed.

(** X9: split(',').join(' ') on a select or sort string puts a space
    for every comma and changes nothing else: the length is kept and no
    comma is left. *)
Theorem split_join_replaces_commas (s : string) :
  split_join (Some (VStr s)) = Some (subst_char "," " " s)
  /\ String.length (subst_char "," " " s) = String.length s
  /\ erase "," (subst_char "," " " s) = subst_char "," " " s.
Proof.
  split; [cbn [split_join]; now rewrite split_join_text|].
  split; [apply subst_char_length | apply subst_char_gone; discriminate].
Qed.

Context {Doc : Type}.
Variable w : World Doc.

(** X10: a select or a sort that is not a string (an array from a
    key given twice, an object from select[a]=b) makes the handler throw
    a TypeError on .split.  The query that line 31 has built by then with
    Bootcamp.find(...).populate('courses') is never awaited, and neither
    is the count: nothing was sent to the storage, and the handler sends
    no response. *)
Theorem select_or_sort_not_a_string (query : object) (v : value) :
  (forall s, v <> VStr s) ->
  (get "select" query = Some v ->
   outcome (getBootcamps w query) = Rejected TypeError
   /\ calls (getBootcamps w query) = [])
  /\ (get "select" query = None -> get "sort" query = Some v ->
      outcome (getBootcamps w query) = Rejected TypeError
      /\ calls (getBootcamps w query) = []).
Proof.
  intros Hv.
  assert (Ht : truthy (Some v) = true /\ split_join (Some v) = None).
  { destruct v as [s|items|props]; [now contradiction (Hv s) | now split ..]. }
  destruct Ht as [Ht Hs].
  unfold getBootcamps. rewrite filter_of_reread.
  split.
  - intros ->. rewrite Ht, Hs. now split.
  - intros -> ->. rewrite Ht, Hs. now split.
Qed.

(** X11: every find that the handler sends populates courses; without
    a sort, or with an empty one, it sorts by -createdAt, else by the
    sort string with spaces for commas; without a select, or with an
    empty one, it selects no fields, else the select string with spaces
    for commas. *)
Theorem find_options (query : object) (q : Query) :
  In (CFind q) (calls (getBootcamps w query)) ->
  q_populate q = "courses"
  /\ q_sort q
     = match get "sort" query with
       | Some (VStr (String c s)) => subst_char "," " " (String c s)
       | _ => "-createdAt"
       end
  /\ q_select q
     = match get "select" query with
       | Some (VStr (String c s)) => Some (subst_char "," " " (String c s))
       | _ => None
       end.
Proof.
  unfold getBootcamps. rewrite filter_of_reread.
  destruct (get "select" query) as [[[|c1 s1]|items1|props1]|];
    destruct (get "sort" query) as [[[|c2 s2]|items2|props2]|];
    destruct (Number.text_of (get "page" query)) as [pageText|];
    destruct (Number.text_of (get "limit" query)) as [limitText|];
    cbn -[split String.concat subst_char];
    try (intros []);
    rewrite ?split_join_text;
    match goal with
    | |- context [exec w ?q0] => destruct (exec w q0) as [found|]
    end; cbn -[subst_char];
    (intros [H|[H|[]]]; [discriminate H | injection H as <-; now repeat split]).
Qed.

End SelectAndSort.

(** ** The radius handler at its edges *)

Section RadiusEdges.

Import Bootcamps.

Context {Doc : Type}.
Variable w : World Doc.

(** X12: when the geocoder knows no location for the zipcode the
    handler throws on loc[0], and when the geocoder fails the failure is
    passed on; in both cases the model is not asked.  With a location,
    the answer is 200 with the documents the model found and their
    number, and the locations after the first play no part. *)
Theorem radius_needs_a_location (zipcode : string) (distance : float) :
  (geocode w zipcode = Some [] ->
   outcome (getBootcampsInRadius w zipcode distance) = Rejected TypeError
   /\ calls (getBootcampsInRadius w zipcode distance) = [CGeocode zipcode])
  /\ (geocode w zipcode = None ->
      outcome (getBootcampsInRadius w zipcode distance) = Rejected GeocoderError
      /\ calls (getBootcampsInRadius w zipcode distance) = [CGeocode zipcode])
  /\ (forall loc0 others found,
        geocode w zipcode = Some (loc0 :: others) ->
        find_geo w {| center_lng := longitude loc0;
                      center_lat := latitude loc0;
                      sphere_radius := radius_of distance |} = Some found ->
        outcome (getBootcampsInRadius w zipcode distance)
        = Respond 200 {| r_success := true;
                         r_count := List.length found;
                         r_data := found |}).
Proof.
  unfold getBootcampsInRadius. split; [|split].
  - intros ->. now split.
  - intros ->. now split.
  - intros loc0 others found -> Hf. cbn -[radius_of]. now rewrite Hf.
Qed.

End RadiusEdges.

(** ** The photo upload beyond its checks *)

Section PhotoStore.

Import Bootcamps.

Context {Doc : Type}.
Variable w : World Doc.

(** The name under which the photo is stored, and where. *)
Let stored (b : Doc) (file : File) : string :=
  "photo_" ++ doc_id w b ++ path_ext w (name file).

Let target (b : Doc) (file : File) : string :=
  FILE_UPLOAD_PATH w ++ "/" ++ stored b file.

(** X13: an image that passes the checks is moved to the upload
    directory under the name photo_<id of the bootcamp><extension>, which
    takes nothing from the uploaded name but its extension; only after
    the move the record gets the name, and the answer 200 carries it.
    When the move fails the answer is the error 500 and the record is
    not touched. *)
Theorem photo_is_moved_then_recorded (id : string) (fs : list (string * File))
        (b : Doc) (file : File) :
  findById w id = Some (Some b) ->
  field "file" fs = Some file ->
  String.prefix "image" (mimetype file) = true ->
  exceeds (size file) (MAX_FILE_UPLOAD w) = false ->
  let r := bootcampPhotoUpload w id (Some fs) in
  (mv w (target b file) = true -> findByIdAndUpdate w id (stored b file) = true ->
   calls r = [CFindById id; CMv (target b file);
              CFindByIdAndUpdate id (stored b file)]
   /\ outcome r = Respond 200 {| p_success := true; p_data := stored b file |})
  /\ (mv w (target b file) = false ->
      calls r = [CFindById id; CMv (target b file)]
      /\ outcome r
         = Next {| message := "Problem with file upload. Please try again.";
                   statusCode := 500 |})
  /\ (forall i n, In (CFindByIdAndUpdate i n) (calls r) ->
                  mv w (target b file) = true /\ i = id /\ n = stored b file).
Proof.
  intros Hb Hf Himg Hex r. subst r. unfold bootcampPhotoUpload, target, stored.
  rewrite Hb. cbn. rewrite Hf. cbn. rewrite Himg, Hex. cbn.
  destruct (mv w _) eqn:Emv; [destruct (findByIdAndUpdate w id _) eqn:Eup|]; cbn;
    (split; [intros Hm Hu; try discriminate; now split|]);
    (split; [intros Hm; try discriminate; now split|]);
    intros i n Hin; cbn in Hin;
    repeat (destruct Hin as [Hin|Hin]; try discriminate Hin;
            try (injection Hin as <- <-; now repeat split));
    contradiction.
Qed.

(** X14: when MAX_FILE_UPLOAD is not set, or is not a number, no size
    is too large: an image of any size is moved to the upload
    directory, and the size error is never the outcome. *)
Theorem no_limit_without_maximum (id : string) (fs : list (string * File))
        (b : Doc) (file : File) :
  MAX_FILE_UPLOAD w = None ->
  findById w id = Some (Some b) ->
  field "file" fs = Some file ->
  String.prefix "image" (mimetype file) = true ->
  In (CMv (target b file)) (calls (bootcampPhotoUpload w id (Some fs)))
  /\ forall e, outcome (bootcampPhotoUpload w id (Some fs)) = Next e ->
               statusCode e = 500%Z.
Proof.
  intros Hmax Hb Hf Himg. unfold bootcampPhotoUpload, target, stored.
  rewrite Hb. cbn. rewrite Hf. cbn. rewrite Himg, Hmax. cbn.
  destruct (mv w _); [destruct (findByIdAndUpdate w id _)|]; cbn;
    (split; [right; left; reflexivity|]);
    intros e He; try discriminate He; injection He as <-; reflexivity.
Qed.

(** X15: a request that carries files, but none under the field name
    file, is not answered with the 400 of a missing file: the handler
    throws a TypeError on file.mimetype, after the lookup of the bootcamp
    and before anything is moved. *)
Theorem upload_under_another_field (id : string) (fs : list (string * File))
        (b : Doc) :
  findById w id = Some (Some b) ->
  field "file" fs = None ->
  outcome (bootcampPhotoUpload w id (Some fs)) = Rejected TypeError
  /\ calls (bootcampPhotoUpload w id (Some fs)) = [CFindById id].
Proof.
  intros Hb Hf. unfold bootcampPhotoUpload. rewrite Hb. cbn. rewrite Hf. now split.
Qed.

End PhotoStore.

(** ** The handlers of one bootcamp *)

Section OneBootcamp.

Import Bootcamps Crud.

Context {Doc Body : Type}.
Variable m : Model Doc Body.

(** X16: deleteBootcamp removes nothing but the document that the id
    names, answers 200 with an empty object exactly when that document
    was found and removed, and for an id without document hands the 404
    to next after the lookup alone. *)
Theorem delete_removes_what_it_found (id : string) :
  (forall d, In (ORemove d) (fst (deleteBootcamp m id)) ->
             m_findById m id = Some (Some d))
  /\ ((exists b, snd (deleteBootcamp m id) = Respond 200 b)
      <-> exists d, m_findById m id = Some (Some d) /\ m_remove m d = true)
  /\ (forall st b, snd (deleteBootcamp m id) = Respond st b ->
                   st = 200%Z /\ i_data b = EmptyObject)
  /\ (m_findById m id = Some None ->
      deleteBootcamp m id = ([OFindById id], Next (not_found id))).
Proof.
  unfold deleteBootcamp.
  destruct (m_findById m id) as [[d|]|] eqn:E;
    [destruct (m_remove m d) eqn:Er|..]; cbn.
  - split; [intros d' [H|[H|[]]]; [discriminate H | now injection H as <-]|].
    split; [split; [intros _; now exists d | intros _; eauto]|].
    split; [intros st b H; injection H as <- <-; now split | discriminate].
  - split; [intros d' [H|[H|[]]]; [discriminate H | now injection H as <-]|].
    split; [split; [intros [b H]; discriminate H
                   |intros (d' & H & Hr); injection H as <-; congruence]|].
    split; [intros st b H; discriminate H | discriminate].
  - split; [intros d' [H|[]]; discriminate H|].
    split; [split; [intros [b H]; discriminate H | intros (d' & H & _); discriminate H]|].
    split; [intros st b H; discriminate H | reflexivity].
  - split; [intros d' [H|[]]; discriminate H|].
    split; [split; [intros [b H]; discriminate H | intros (d' & H & _); discriminate H]|].
    split; [intros st b H; discriminate H | discriminate].
Qed.

(** X17: the four handlers answer with one status each, 201 for a
    created bootcamp and 200 otherwise, and with the document that the
    model gave; the only error that any of them hands to next is the 404
    that names the requested id, the same as the one of the photo
    upload, and createBootcamp hands none. *)
Theorem one_bootcamp_answers (id : string) (body : Body) :
  (forall st b, snd (getBootcamp m id) = Respond st b ->
                st = 200%Z
                /\ exists d, i_data b = Document d
                             /\ m_findById m id = Some (Some d))
  /\ (forall st b, snd (createBootcamp m body) = Respond st b ->
                   st = 201%Z
                   /\ exists d, i_data b = Document d /\ m_create m body = Some d)
  /\ (forall st b, snd (updateBootcamp m id body) = Respond st b ->
                   st = 200%Z
                   /\ exists d, i_data b = Document d
                                /\ m_findByIdAndUpdate m id body = Some (Some d))
  /\ (forall e, snd (getBootcamp m id) = Next e
                \/ snd (updateBootcamp m id body) = Next e
                \/ snd (deleteBootcamp m id) = Next e ->
                e = not_found id /\ statusCode e = 404%Z)
  /\ (forall e, snd (createBootcamp m body) <> Next e).
Proof.
  unfold getBootcamp, createBootcamp, updateBootcamp, deleteBootcamp.
  split; [|split; [|split; [|split]]].
  - destruct (m_findById m id) as [[d|]|]; cbn; intros st b H;
      try discriminate H. injection H as <- <-. split; [reflexivity|].
    exists d. now split.
  - destruct (m_create m body) as [d|]; cbn; intros st b H;
      try discriminate H. injection H as <- <-. split; [reflexivity|].
    exists d. now split.
  - destruct (m_findByIdAndUpdate m id body) as [[d|]|]; cbn; intros st b H;
      try discriminate H. injection H as <- <-. split; [reflexivity|].
    exists d. now split.
  - intros e [H|[H|H]].
    + destruct (m_findById m id) as [[d|]|]; cbn in H; try discriminate H.
      injection H as <-. now split.
    + destruct (m_findByIdAndUpdate m id body) as [[d|]|]; cbn in H;
        try discriminate H.
      injection H as <-. now split.
    + destruct (m_findById m id) as [[d|]|]; [destruct (m_remove m d)|..];
        cbn in H; try discriminate H.
      injection H as <-. now split.
  - intros e. destruct (m_create m body); cbn; discriminate.
Qed.

End OneBootcamp.

(** ** The router *)

Section Routes.

Import Router.

Variable passes : string -> Method -> list (string * string) -> list string -> bool.

Ltac split_route H :=
  repeat match type of H with
         | context [same_text ?x ?y] =>
             let E := fresh "E" in
             destruct (same_text x y) eqn:E; cbn -[same_text] in H
         | context [match ?s with EmptyString => _ | String _ _ => _ end] =>
             destruct s; cbn -[same_text] in H
         | context [passes ?r ?m ?ps ?rest] =>
             let E := fresh "P" in
             destruct (passes r m ps rest) eqn:E; cbn -[same_text] in H
         end.

(** X18: every request that the router gives to a controller with a
    method other than GET has passed protect and then
    authorise('publisher', 'admin'); a GET passes neither, only the
    list passes advancedResults.  The GET controllers are getBootcamps,
    getBootcamp and getBootcampsInRadius.  This holds whatever the
    mounted router of the courses does. *)
Theorem writes_pass_the_guard (m : Method) (path : list string)
        (before : list Middleware) (c : Controller)
        (params : list (string * string)) :
  dispatch passes m path = Handle before c params ->
  (m <> GET -> before = guard)
  /\ (m = GET ->
      (before = [] \/ before = [advancedResults "Bootcamp" "courses"])
      /\ (c = getBootcamps \/ c = getBootcamp \/ c = getBootcampsInRadius))
  /\ (c = getBootcamps \/ c = getBootcamp \/ c = getBootcampsInRadius -> m = GET).
Proof.
  intros H. unfold dispatch, layers in H.
  destruct path as [|a [|b [|c0 [|d rest]]]]; destruct m;
    cbn -[same_text] in H; split_route H; try discriminate H;
    injection H as <- <- <-;
    (split; [intros Hm; first [reflexivity | now contradiction Hm]|]);
    (split;
     [intros Hm;
      first [discriminate Hm
            |split; tauto]
     |intros Hc; decompose [or] Hc; try discriminate; reflexivity]).
Qed.


(** X20: the router of the courses is asked first about every path
    whose second segment is courses below a first segment that is not
    empty, for every method and whatever follows, with the first segment
    as bootcampId.  When it keeps the request no controller of the
    bootcamps sees it; when it hands the request back the routes of the
    bootcamps are tried as if the mount were not there. *)
Theorem courses_are_mounted_first (m : Method) (a z : string) (rest : list string) :
  a <> EmptyString -> same_text "courses" z = true ->
  (passes "courseRouter" m [("bootcampId", a)] rest = false ->
   dispatch passes m (a :: z :: rest)
   = Mount "courseRouter" [("bootcampId", a)] rest)
  /\ (passes "courseRouter" m [("bootcampId", a)] rest = true ->
      dispatch passes m (a :: z :: rest)
      = dispatch_in passes (tl layers) m (a :: z :: rest)).
Proof.
  intros Ha Hz. unfold dispatch, layers. cbn [tl]. cbn -[same_text].
  destruct a as [|a0 a]; [contradiction|]. cbn -[same_text]. rewrite Hz.
  cbn -[same_text]. split; intros ->; reflexivity.
Qed.

End Routes.

(** ** The properties above on concrete requests *)

Section Concrete.

Import Bootcamps Shape.

Lemma plain_query_filter_witness :
  filter_of [("name", VStr "check-in"); ("price", VObj [("lte", VStr "100")]);
             ("sort", VStr "name")]
  = Some (VObj [("name", VStr "check-$in");
                ("price", VObj [("$lte", VStr "100")])]).
Proof.
  exact (plain_query_filter
           [("name", VStr "check-in"); ("price", VObj [("lte", VStr "100")]);
            ("sort", VStr "name")] eq_refl).
Defined.

Lemma untouched_query_passes_through_witness :
  filter_of [("city", VStr "Boston"); ("housing", VStr "true"); ("page", VStr "2")]
  = Some (VObj [("city", VStr "Boston"); ("housing", VStr "true")]).
Proof.
  apply (untouched_query_passes_through
           [("city", VStr "Boston"); ("housing", VStr "true"); ("page", VStr "2")]).
  - reflexivity.
  - cbn. split; [|tauto].
    repeat constructor; cbn; intros H; decompose [or] H; try discriminate; contradiction.
Defined.

Lemma parse_stringify_witness :
  JSON.parse (JSON.stringify (VObj [("a", VArr [VStr "x"; VStr "in"]);
                                    ("b", VObj [("gt", VStr "1")])]))
  = Some (VObj [("a", VArr [VStr "x"; VStr "in"]); ("b", VObj [("gt", VStr "1")])]).
Proof.
  apply parse_stringify. cbn.
  repeat split; repeat constructor; cbn; intros H; decompose [or] H;
    try discriminate; contradiction.
Defined.



Lemma parseInt_reads_decimal_witness :
  Number.parseInt_string "-12px" = Some (-12)%Z
  /\ page_of [("page", VStr "-12px")] = (-12)%Z.
Proof.
  destruct (parseInt_reads_decimal (-12) "px" [("page", VStr "-12px")]
              eq_refl eq_refl) as [H1 H2].
  split; [exact H1|].
  apply H2; [discriminate | reflexivity].
Defined.

Lemma following_next_witness :
  let query := [("page", VStr "2"); ("limit", VStr "10")] in
  let query' := [("page", VStr "3"); ("limit", VStr "10")] in
  page_of query' = 3%Z /\ limit_of query' = 10%Z
  /\ startIndex (page_of query') (limit_of query') = 20%Z.
Proof.
  intros query query'.
  exact (following_next query query' 25 {| page := 3; limit := 10 |}
           eq_refl eq_refl eq_refl eq_refl eq_refl eq_refl).
Defined.

Lemma select_or_sort_not_a_string_witness :
  outcome (getBootcamps Demo.world [("select", VArr [VStr "name"; VStr "phone"])])
  = Rejected TypeError.
Proof.
  destruct (select_or_sort_not_a_string Demo.world
              [("select", VArr [VStr "name"; VStr "phone"])]
              (VArr [VStr "name"; VStr "phone"])) as [H _].
  - intros s. discriminate.
  - exact (proj1 (H eq_refl)).
Defined.

Lemma find_options_witness :
  let q := {| q_filter := VObj [];
              q_populate := "courses";
              q_select := Some "name phone";
              q_sort := "-createdAt";
              q_skip := 0;
              q_limit := 25 |} in
  q_sort q = "-createdAt" /\ q_select q = Some "name phone".
Proof.
  intros q.
  destruct (find_options Demo.world
              [("select", VStr "name,phone"); ("sort", VStr "")] q)
    as (_ & Hs & Hf).
  - vm_compute. right. left. reflexivity.
  - split; [exact Hs | exact Hf].
Defined.

Lemma radius_needs_a_location_witness :
  outcome (getBootcampsInRadius Samples.nowhere "00000" 10%float)
  = Rejected TypeError.
Proof.
  destruct (radius_needs_a_location Samples.nowhere "00000" 10%float) as (H & _).
  exact (proj1 (H eq_refl)).
Defined.

Lemma photo_is_moved_then_recorded_witness :
  calls (bootcampPhotoUpload Demo.world "b2" (Some [("file", Demo.photo 20)]))
  = [CFindById "b2"; CMv "./public/uploads/photo_b2.jpg";
     CFindByIdAndUpdate "b2" "photo_b2.jpg"].
Proof.
  destruct (photo_is_moved_then_recorded Demo.world "b2" [("file", Demo.photo 20)]
              [("_id", "b2"); ("name", "b")] (Demo.photo 20)
              eq_refl eq_refl eq_refl eq_refl) as (H & _).
  exact (proj1 (H eq_refl eq_refl)).
Defined.

Lemma no_limit_without_maximum_witness :
  In (CMv "./public/uploads/photo_b1.jpg")
     (calls (bootcampPhotoUpload Samples.unlimited "b1"
               (Some [("file", Demo.photo 5000000000)]))).
Proof.
  exact (proj1 (no_limit_without_maximum Samples.unlimited "b1"
                  [("file", Demo.photo 5000000000)]
                  [("_id", "b1"); ("name", "a")] (Demo.photo 5000000000)
                  eq_refl eq_refl eq_refl eq_refl)).
Defined.

Lemma upload_under_another_field_witness :
  outcome (bootcampPhotoUpload Demo.world "b1" (Some [("photo", Demo.photo 20)]))
  = Rejected TypeError.
Proof.
  exact (proj1 (upload_under_another_field Demo.world "b1"
                  [("photo", Demo.photo 20)] [("_id", "b1"); ("name", "a")]
                  eq_refl eq_refl)).
Defined.

Lemma delete_removes_what_it_found_witness :
  Crud.deleteBootcamp Samples.model "nobody"
  = ([Crud.OFindById "nobody"], Next (not_found "nobody")).
Proof.
  destruct (delete_removes_what_it_found Samples.model "nobody") as (_ & _ & _ & H).
  exact (H eq_refl).
Defined.

Lemma one_bootcamp_answers_witness :
  exists st b,
    snd (Crud.createBootcamp Samples.model [("name", "d")]) = Respond st b
    /\ st = 201%Z.
Proof.
  eexists. eexists. split; [reflexivity|].
  destruct (one_bootcamp_answers Samples.model "b1" [("name", "d")])
    as (_ & Hc & _).
  exact (proj1 (Hc _ _ eq_refl)).
Defined.

Lemma writes_pass_the_guard_witness :
  exists before params,
    Router.dispatch (fun _ _ _ _ => false) Router.PUT ["b1"; "Photo"]
    = Router.Handle before Router.bootcampPhotoUpload params
    /\ before = [Router.protect; Router.authorise ["publisher"; "admin"]].
Proof.
  eexists. eexists. split; [reflexivity|].
  apply (proj1 (writes_pass_the_guard (fun _ _ _ _ => false) Router.PUT
                  ["b1"; "Photo"] _ Router.bootcampPhotoUpload _ eq_refl)).
  discriminate.
Defined.


(** GET /radius/courses/10 when the router of the courses keeps it. *)
Lemma courses_are_mounted_first_witness :
  Router.dispatch (fun _ _ _ _ => false) Router.GET ["radius"; "courses"; "10"]
  = Router.Mount "courseRouter" [("bootcampId", "radius")] ["10"].
Proof.
  apply (proj1 (courses_are_mounted_first (fun _ _ _ _ => false) Router.GET
                  "radius" "courses" ["10"] ltac:(discriminate) eq_refl)).
  reflexivity.
Defined.

End Concrete.
